(** * mstypes: the RPC_SID value type

    A shallow embedding of [sid.go] (package [mstypes]): the [RPCSID]
    struct, its [String] and [ToWriter] methods and [ConvertStrToSID],
    together with models of the Go standard-library routines they call
    ([strings.Split], [strconv.ParseUint], [fmt]'s [%d] verb,
    [hex.EncodeToString], [encoding/binary]).

    Conventions.
    - Go's fixed-width unsigned integers ([uint8], [uint32], [uint64]) are
      integers of [Z]; every place where Go truncates or wraps is written
      out with [mod].  Range predicates ([is_uint8], ...) say what the Go
      type guarantees.
    - A Go [string] is a sequence of bytes: [string] of the standard
      library, whose characters are the 256 values of [ascii].
    - A Go slice is a [list]; the array [[6]byte] is the record [Array6].
    - A function returning [(v, err)] returns a pair whose second component
      is an [option]; a nil pointer is [None].
    - A run-time panic is an explicit outcome ([None] for [String], the
      constructor [Panics] for [ToWriter]).  Where a preceding check keeps
      an index in range, the element is read with [nth]; its default is
      never used. *)

From Stdlib Require Import ZArith List Bool Lia.
From Stdlib Require Import Strings.String Strings.Ascii.
Import ListNotations.

Local Open Scope string_scope.
Local Open Scope list_scope.
Local Open Scope Z_scope.

(** ** Machine integers *)

Definition byte := Z.

Definition is_uint8 (x : Z) : Prop := 0 <= x < 256.
Definition is_uint32 (x : Z) : Prop := 0 <= x < 2 ^ 32.
Definition is_uint64 (x : Z) : Prop := 0 <= x < 2 ^ 64.

(** The conversions [byte(x)], [uint32(x)] and arithmetic in [uint64]. *)
Definition to_uint8 (x : Z) : Z := x mod 2 ^ 8.
Definition to_uint32 (x : Z) : Z := x mod 2 ^ 32.
Definition to_uint64 (x : Z) : Z := x mod 2 ^ 64.

(** [math.MaxUint32] and [strconv]'s [maxUint64]. *)
Definition MaxUint32 : Z := 4294967295.
Definition maxUint64 : Z := 18446744073709551615.

(** A byte of a Go string, as a number and back. *)
Definition byte_of_ascii (c : ascii) : Z := Z.of_N (N_of_ascii c).
Definition ascii_of_byte (b : Z) : ascii := ascii_of_N (Z.to_N b).

(** ** [strings] *)

Module Strings.

(** [strings.Split(s, sep)] for a separator of one byte, the only way
    [sid.go] calls it ([sep = "-"]).  The result is never empty: a
    string without the separator is returned as its own single part (so
    the branch for an empty recursive result is never taken, see
    [Split_not_nil]). *)
Fixpoint Split (s : string) (sep : ascii) : list string :=
  match s with
  | EmptyString => [EmptyString]
  | String c rest =>
      if Ascii.eqb c sep then EmptyString :: Split rest sep
      else match Split rest sep with
           | p :: ps => String c p :: ps
           | [] => [String c EmptyString]
           end
  end.

End Strings.

(** ** [fmt] *)

Module Fmt.

(** The loop of [fmtInteger] in package [fmt] for base 10 and no flags: digits
    are produced from the least significant one and written right to
    left into the buffer.
<<
    for u >= 10 { i--; next := u / 10; buf[i] = byte('0' + u - next*10); u = next }
    i--; buf[i] = digits[u]
>>
    [fuel] bounds the number of iterations; a [uint64] has at most 20
    decimal digits, so 20 is enough (see [Sprintf_d_digits]). *)
Fixpoint fmtInteger (fuel : nat) (u : Z) (buf : string) : string :=
  match fuel with
  | O => buf
  | S fuel' =>
      if 10 <=? u then
        let next := u / 10 in
        fmtInteger fuel' next (String (ascii_of_byte (48 + u - next * 10)) buf)
      else String (ascii_of_byte (48 + u)) buf
  end.

(** [fmt.Sprintf("%d", u)] for an unsigned integer of at most 64 bits. *)
Definition Sprintf_d (u : Z) : string := fmtInteger 20 u EmptyString.

End Fmt.

(** ** [encoding/hex] *)

Module Hex.

Definition hextable : string := "0123456789abcdef".

(** [hextable[i]]; the table has 16 entries and the index is a nibble. *)
Definition hexdigit (i : Z) : ascii :=
  match String.get (Z.to_nat i) hextable with
  | Some c => c
  | None => "0"%char
  end.

(** [hex.EncodeToString(src)]: two characters per byte,
    [hextable[v>>4]] then [hextable[v&0x0f]]. *)
Fixpoint EncodeToString (src : list byte) : string :=
  match src with
  | [] => EmptyString
  | v :: rest =>
      String (hexdigit (Z.shiftr v 4))
        (String (hexdigit (Z.land v 15)) (EncodeToString rest))
  end.

End Hex.

(** ** [encoding/binary] *)

Module Binary.

(** [binary.BigEndian.Uint64(b)]: reads [b[0..7]]; the bounds check
    [_ = b[7]] panics on a shorter slice, which is [None] here. *)
Definition BigEndian_Uint64 (b : list byte) : option Z :=
  match b with
  | b0 :: b1 :: b2 :: b3 :: b4 :: b5 :: b6 :: b7 :: _ =>
      Some (Z.lor b7
           (Z.lor (Z.shiftl b6 8)
           (Z.lor (Z.shiftl b5 16)
           (Z.lor (Z.shiftl b4 24)
           (Z.lor (Z.shiftl b3 32)
           (Z.lor (Z.shiftl b2 40)
           (Z.lor (Z.shiftl b1 48) (Z.shiftl b0 56))))))))
  | _ => None
  end.

(** [binary.BigEndian.AppendUint32(b, v)]. *)
Definition BigEndian_AppendUint32 (b : list byte) (v : Z) : list byte :=
  b ++ [ to_uint8 (Z.shiftr v 24); to_uint8 (Z.shiftr v 16);
         to_uint8 (Z.shiftr v 8); to_uint8 v ].

(** [binary.LittleEndian.PutUint32] on a fresh 4-byte buffer. *)
Definition LittleEndian_Uint32 (v : Z) : list byte :=
  [ to_uint8 v; to_uint8 (Z.shiftr v 8);
    to_uint8 (Z.shiftr v 16); to_uint8 (Z.shiftr v 24) ].

End Binary.

(** ** [strconv] *)

Module Strconv.

Inductive ErrKind : Type := ErrSyntax | ErrRange.

(** [strconv.NumError], without the constant function name. *)
Record NumError : Type := mkNumError { Num : string; Err : ErrKind }.

(** [lower(c)]: [c | ('x' - 'X')]. *)
Definition lower (c : Z) : Z := Z.lor c 32.

(** The digit loop of [strconv.ParseUint], for [2 <= base <= 36] (no
    underscores: they are only accepted for base 0).  [n] is a [uint64].
    The first component is the value Go returns alongside the error. *)
Fixpoint ParseUint_loop (s0 cs : string) (base cutoff maxVal n : Z)
  : Z * option NumError :=
  match cs with
  | EmptyString => (n, None)
  | String ch rest =>
      let c := byte_of_ascii ch in
      let digit :=
        if (48 <=? c) && (c <=? 57) then Some (c - 48)
        else if (97 <=? lower c) && (lower c <=? 122)
             then Some (lower c - 97 + 10)
             else None in
      match digit with
      | None => (0, Some (mkNumError s0 ErrSyntax))
      | Some d =>
          if d >=? base then (0, Some (mkNumError s0 ErrSyntax))
          else if n >=? cutoff then (maxVal, Some (mkNumError s0 ErrRange))
          else
            let n' := to_uint64 (n * base) in
            let n1 := to_uint64 (n' + d) in
            if (n1 <? n') || (n1 >? maxVal)
            then (maxVal, Some (mkNumError s0 ErrRange))
            else ParseUint_loop s0 rest base cutoff maxVal n1
      end
  end.

(** [strconv.ParseUint(s, base, bitSize)] for [2 <= base <= 36] and
    [1 <= bitSize <= 64], which covers the calls of [sid.go]
    ([base = 10], [bitSize = 32]). *)
Definition ParseUint (s : string) (base bitSize : Z) : Z * option NumError :=
  match s with
  | EmptyString => (0, Some (mkNumError s ErrSyntax))
  | _ =>
      let cutoff := maxUint64 / base + 1 in
      let maxVal := 2 ^ bitSize - 1 in
      ParseUint_loop s s base cutoff maxVal 0
  end.

End Strconv.

(** ** [io] *)

Module IO.

(** A Go [error] value, by its message. *)
Definition error : Type := string.

(** [io.Writer]: [Write(p) (n int, err error)] on a sink whose state is
    threaded explicitly. *)
Class Writer (W : Type) : Type :=
  { Write : W -> list byte -> W * (Z * option error) }.

(** A sink in the manner of [bytes.Buffer]: every write is appended and
    none is rejected. *)
Definition Buffer : Type := list byte.

#[global] Instance Buffer_Writer : Writer Buffer :=
  { Write := fun buf p => (buf ++ p, (Z.of_nat (List.length p), None)) }.

(** A sink with room for [room] more bytes: a write that does not fit
    stores what fits and reports [io.ErrShortWrite]. *)
Record Limited : Type := mkLimited { room : nat; stored : list byte }.

Definition ErrShortWrite : error := "short write".

#[global] Instance Limited_Writer : Writer Limited :=
  { Write := fun l p =>
      if (List.length p <=? room l)%nat
      then (mkLimited (room l - List.length p) (stored l ++ p),
            (Z.of_nat (List.length p), None))
      else (mkLimited 0 (stored l ++ firstn (room l) p),
            (Z.of_nat (room l), Some ErrShortWrite)) }.

End IO.

(** ** [encoding/binary]: [binary.Write] *)

Module BinaryWrite.

(** The values [sid.go] hands to [binary.Write]. *)
Inductive Data : Type :=
| U8 (v : Z)
| U32 (v : Z)
| Bytes (a : list byte).

(** Little-endian encoding of fixed-size data. *)
Definition encode (d : Data) : list byte :=
  match d with
  | U8 v => [v]
  | U32 v => Binary.LittleEndian_Uint32 v
  | Bytes a => a
  end.

(** [binary.Write(w, binary.LittleEndian, data)]: one call of [w.Write]
    with the encoded bytes; the byte count it reports is dropped. *)
Definition Write {W : Type} `{IO.Writer W} (w : W) (d : Data)
  : W * option IO.error :=
  let '(w', (_, err)) := IO.Write w (encode d) in (w', err).

End BinaryWrite.

(** ** The SID value type *)

(** [[6]byte]. *)
Record Array6 : Type :=
  mkArray6 { el0 : byte; el1 : byte; el2 : byte;
             el3 : byte; el4 : byte; el5 : byte }.

(** [a[:]]. *)
Definition slice6 (a : Array6) : list byte :=
  [el0 a; el1 a; el2 a; el3 a; el4 a; el5 a].

(** [copy(dst[:], src)]: the first [min(6, len(src))] elements of [src]
    overwrite those of [dst]. *)
Definition copy6 (dst : Array6) (src : list byte) : Array6 :=
  mkArray6 (nth 0 src (el0 dst)) (nth 1 src (el1 dst)) (nth 2 src (el2 dst))
           (nth 3 src (el3 dst)) (nth 4 src (el4 dst)) (nth 5 src (el5 dst)).

(** [type RPCSID struct]. *)
Record RPCSID : Type :=
  mkRPCSID { Revision : Z;                  (* uint8 *)
             SubAuthorityCount : Z;         (* uint8 *)
             IdentifierAuthority : Array6;  (* [6]byte *)
             SubAuthority : list Z          (* []uint32 *) }.

(** [RPCSID{}]; a nil slice and an empty one are both [[]]. *)
Definition zero_RPCSID : RPCSID :=
  mkRPCSID 0 0 (mkArray6 0 0 0 0 0 0) [].

(** What the Go types guarantee of a value of type [RPCSID]. *)
Definition wf_Array6 (a : Array6) : Prop := Forall is_uint8 (slice6 a).

Definition wf_RPCSID (s : RPCSID) : Prop :=
  is_uint8 (Revision s) /\ is_uint8 (SubAuthorityCount s) /\
  wf_Array6 (IdentifierAuthority s) /\ Forall is_uint32 (SubAuthority s).

(** A run-time panic. *)
Inductive RuntimeError : Type :=
| IndexOutOfRange (index : Z) (len : Z).

(** ** [func (s *RPCSID) String() string]

    [None] stands for a panic (the bounds check of [Uint64]). *)
Definition RPCSID_String (s : RPCSID) : option string :=
  let strb := "S-1-" in
  let b := [0; 0] ++ slice6 (IdentifierAuthority s) in
  match Binary.BigEndian_Uint64 b with
  | None => None
  | Some i =>
      let strb :=
        if i >? MaxUint32
        then (strb ++ ("0x" ++ Hex.EncodeToString (slice6 (IdentifierAuthority s))))%string
        else (strb ++ Fmt.Sprintf_d i)%string in
      Some (fold_left
              (fun strb sub => (strb ++ ("-" ++ Fmt.Sprintf_d sub))%string)
              (SubAuthority s) strb)
  end.

(** ** [func (s *RPCSID) ToWriter(w io.Writer) (err error)] *)

Inductive Outcome : Type :=
| Returns (err : option IO.error)
| Panics (e : RuntimeError).

Section ToWriter.

Context {W : Type} `{IO.Writer W}.

(** The loop [for i := 0; i < int(s.SubAuthorityCount); i++], with
    [todo] iterations left before [i] reaches the count. *)
Fixpoint ToWriter_loop (s : RPCSID) (todo : nat) (i : nat) (w : W)
  : W * Outcome :=
  match todo with
  | O => (w, Returns None)
  | S todo' =>
      match nth_error (SubAuthority s) i with
      | None =>
          (w, Panics (IndexOutOfRange (Z.of_nat i)
                        (Z.of_nat (List.length (SubAuthority s)))))
      | Some x =>
          match BinaryWrite.Write w (BinaryWrite.U32 x) with
          | (w', Some e) => (w', Returns (Some e))
          | (w', None) => ToWriter_loop s todo' (S i) w'
          end
      end
  end.

Definition RPCSID_ToWriter (s : RPCSID) (w : W) : W * Outcome :=
  match BinaryWrite.Write w (BinaryWrite.U8 (Revision s)) with
  | (w, Some e) => (w, Returns (Some e))
  | (w, None) =>
  match BinaryWrite.Write w (BinaryWrite.U8 (SubAuthorityCount s)) with
  | (w, Some e) => (w, Returns (Some e))
  | (w, None) =>
  match BinaryWrite.Write w (BinaryWrite.Bytes (slice6 (IdentifierAuthority s))) with
  | (w, Some e) => (w, Returns (Some e))
  | (w, None) =>
      ToWriter_loop s (Z.to_nat (SubAuthorityCount s)) 0 w
  end end end.

End ToWriter.

(** ** [func ConvertStrToSID(s string) (sid *RPCSID, err error)] *)

Inductive SIDError : Type :=
| InvalidSIDRepresentation                       (* "Invalid SID representation" *)
| RevisionError (e : Strconv.NumError)           (* "could't convert revision ..." *)
| AuthorityError (e : Strconv.NumError)          (* "could't convert authority ..." *)
| SubauthorityError (e : Strconv.NumError).      (* "could't convert subauthority ..." *)

(** The loop [for _, part := range parts[3:]]; [subCount] is a [byte]. *)
Fixpoint ConvertStrToSID_loop (parts : list string) (subCount : Z) (subAuths : list Z)
  : (Z * list Z) + Strconv.NumError :=
  match parts with
  | [] => inl (subCount, subAuths)
  | part :: rest =>
      match Strconv.ParseUint part 10 32 with
      | (_, Some e) => inr e
      | (subA, None) =>
          let subAuths := subAuths ++ [to_uint32 subA] in
          let subCount := to_uint8 (subCount + 1) in
          ConvertStrToSID_loop rest subCount subAuths
      end
  end.

(** The indices 1 and 2 of [parts] are in range after the length check,
    so [nth] never falls back on its default.  On the format error the
    bare [return] hands back the named result [sid], which already points
    to [RPCSID{}]; the other error paths return [nil] explicitly. *)
Definition ConvertStrToSID (s : string) : option RPCSID * option SIDError :=
  let sid := zero_RPCSID in
  let parts := Strings.Split s "-" in
  if (List.length parts <? 4)%nat then (Some sid, Some InvalidSIDRepresentation)
  else
    match Strconv.ParseUint (nth 1 parts EmptyString) 10 32 with
    | (_, Some e) => (None, Some (RevisionError e))
    | (rev, None) =>
    let sid := mkRPCSID (to_uint8 rev) (SubAuthorityCount sid)
                        (IdentifierAuthority sid) (SubAuthority sid) in
    match Strconv.ParseUint (nth 2 parts EmptyString) 10 32 with
    | (_, Some e) => (None, Some (AuthorityError e))
    | (auth, None) =>
    let authBuf := [0; 0] in
    let authBuf := Binary.BigEndian_AppendUint32 authBuf (to_uint32 auth) in
    let sid := mkRPCSID (Revision sid) (SubAuthorityCount sid)
                        (copy6 (IdentifierAuthority sid) authBuf)
                        (SubAuthority sid) in
    match ConvertStrToSID_loop (skipn 3 parts) 0 [] with
    | inr e => (None, Some (SubauthorityError e))
    | inl (subCount, subAuths) =>
        let sid := mkRPCSID (Revision sid) subCount
                            (IdentifierAuthority sid) subAuths in
        (Some sid, None)
    end end end.

(** ** Specification-level notions

    These definitions do not come from [sid.go]; the theorems below use
    them to say what the code computes. *)

(** [contains c s]: the byte [c] occurs in [s]. *)
Fixpoint contains (c : ascii) (s : string) : bool :=
  match s with
  | EmptyString => false
  | String c' rest => Ascii.eqb c' c || contains c rest
  end.

(** ['0' <= c <= '9']. *)
Definition is_digit (c : ascii) : bool :=
  (48 <=? byte_of_ascii c) && (byte_of_ascii c <=? 57).

Fixpoint all_digits (s : string) : bool :=
  match s with
  | EmptyString => true
  | String c rest => is_digit c && all_digits rest
  end.

(** The number a string of decimal digits denotes, most significant digit
    first, continuing from [acc]. *)
Fixpoint dec_value (s : string) (acc : Z) : Z :=
  match s with
  | EmptyString => acc
  | String c rest => dec_value rest (10 * acc + (byte_of_ascii c - 48))
  end.

(** A decimal unsigned integer that fits in 32 bits: one digit at least,
    digits only, value at most [MaxUint32] (leading zeros are allowed). *)
Definition valid_uint32_decimal (p : string) : bool :=
  match p with
  | EmptyString => false
  | _ => all_digits p && (dec_value p 0 <=? MaxUint32)
  end.

(** [cutoff] and [maxVal] of [ParseUint] for base 10 and 32 bits. *)
Definition cutoff10 : Z := maxUint64 / 10 + 1.
Definition maxVal32 : Z := 2 ^ 32 - 1.

(** One of [0123456789abcdef]. *)
Definition is_lower_hex (c : ascii) : bool :=
  contains c Hex.hextable.

Fixpoint all_lower_hex (s : string) : bool :=
  match s with
  | EmptyString => true
  | String c rest => is_lower_hex c && all_lower_hex rest
  end.

(** The value of a lowercase hexadecimal digit, and the bytes a string of
    such digits denotes, two digits per byte. *)
Definition hex_char_value (c : ascii) : Z :=
  if is_digit c then byte_of_ascii c - 48 else byte_of_ascii c - 87.

Fixpoint hex_decode (s : string) : list byte :=
  match s with
  | String hi (String lo rest) =>
      (16 * hex_char_value hi + hex_char_value lo) :: hex_decode rest
  | _ => []
  end.

(** The numeric-conversion errors, as opposed to the format error. *)
Definition is_conversion_error (e : SIDError) : bool :=
  match e with
  | InvalidSIDRepresentation => false
  | RevisionError _ | AuthorityError _ | SubauthorityError _ => true
  end.

(** The six authority bytes as a 48-bit big-endian integer. *)
Definition authority_value (a : Array6) : Z :=
  el0 a * 2 ^ 40 + el1 a * 2 ^ 32 + el2 a * 2 ^ 24 +
  el3 a * 2 ^ 16 + el4 a * 2 ^ 8 + el5 a.

(** Four bytes as a little-endian integer. *)
Definition le_value (bs : list byte) : Z :=
  fold_right (fun b acc => b + 256 * acc) 0 bs.

(** [-<sub1>-<sub2>-...], each sub-authority in decimal. *)
Fixpoint render_subs (subs : list Z) : string :=
  match subs with
  | [] => EmptyString
  | sub :: rest => ("-" ++ (Fmt.Sprintf_d sub ++ render_subs rest))%string
  end.

(** The authority segment: [0x] and the hexadecimal bytes above
    [MaxUint32], the decimal value otherwise. *)
Definition render_authority (a : Array6) : string :=
  if authority_value a >? MaxUint32
  then ("0x" ++ Hex.EncodeToString (slice6 a))%string
  else Fmt.Sprintf_d (authority_value a).

(** The number a part denotes. *)
Definition part_value (p : string) : Z := dec_value p 0.

(** The SID the parser builds from the revision part [p1], the authority
    part [p2] and the sub-authority parts [ps]. *)
Definition parsed_sid (p1 p2 : string) (ps : list string) : RPCSID :=
  mkRPCSID (to_uint8 (part_value p1))
           (to_uint8 (Z.of_nat (List.length ps)))
           (copy6 (IdentifierAuthority zero_RPCSID)
                  (Binary.BigEndian_AppendUint32 [0; 0] (part_value p2)))
           (map part_value ps).

(** [s] with its count field, or its revision, replaced. *)
Definition with_count (c : Z) (s : RPCSID) : RPCSID :=
  mkRPCSID (Revision s) c (IdentifierAuthority s) (SubAuthority s).

Definition with_revision (r : Z) (s : RPCSID) : RPCSID :=
  mkRPCSID r (SubAuthorityCount s) (IdentifierAuthority s) (SubAuthority s).

Section Chunks.

Context {W : Type} `{IO.Writer W}.

(** Hand the chunks to the sink one [Write] call each, in order, and stop
    at the first one it rejects. *)
Fixpoint write_chunks (w : W) (chunks : list (list byte)) : W * option IO.error :=
  match chunks with
  | [] => (w, None)
  | p :: rest =>
      match IO.Write w p with
      | (w', (_, Some e)) => (w', Some e)
      | (w', (_, None)) => write_chunks w' rest
      end
  end.

End Chunks.

(** The header of the wire format and the encoded sub-authorities. *)
Definition header_chunks (s : RPCSID) : list (list byte) :=
  [[Revision s]; [SubAuthorityCount s]; slice6 (IdentifierAuthority s)].

Definition sub_chunks (subs : list Z) : list (list byte) :=
  map Binary.LittleEndian_Uint32 subs.

(** What [ToWriter] hands to the sink when no write is rejected: the
    header, then the entries the loop reaches before the count or the end
    of the slice stops it. *)
Definition wire_chunks (s : RPCSID) : list (list byte) :=
  header_chunks s ++
  sub_chunks (firstn (Z.to_nat (SubAuthorityCount s)) (SubAuthority s)).

Definition wire_bytes (s : RPCSID) : list byte := List.concat (wire_chunks s).

(** How the loop ends on a sink that accepts everything: normally when the
    count is within the slice, with an index panic at the end of the slice
    otherwise. *)
Definition loop_end (s : RPCSID) : Outcome :=
  if (Z.to_nat (SubAuthorityCount s) <=? List.length (SubAuthority s))%nat
  then Returns None
  else Panics (IndexOutOfRange (Z.of_nat (List.length (SubAuthority s)))
                               (Z.of_nat (List.length (SubAuthority s)))).

Section ToWriterSpec.

Context {W : Type} `{IO.Writer W}.

(** [ToWriter] in terms of the chunk sequence. *)
Definition ToWriter_by_chunks (s : RPCSID) (w : W) : W * Outcome :=
  match write_chunks w (wire_chunks s) with
  | (w', Some e) => (w', Returns (Some e))
  | (w', None) => (w', loop_end s)
  end.

End ToWriterSpec.

(** Rendering [V] and parsing the result gives [V'] back. *)
Definition renders_and_parses_to (V V' : RPCSID) : Prop :=
  exists str : string,
    RPCSID_String V = Some str /\ ConvertStrToSID str = (Some V', None).

(** Little-endian 32-bit words read back from bytes, four at a time. *)
Fixpoint decode_u32s (bs : list byte) : list Z :=
  match bs with
  | b0 :: b1 :: b2 :: b3 :: rest => le_value [b0; b1; b2; b3] :: decode_u32s rest
  | _ => []
  end.

(** The first part the numeric parse rejects, with its index in [parts];
    [i] is the index of the head of the list. *)
Fixpoint first_invalid (parts : list string) (i : nat) : option (nat * string) :=
  match parts with
  | [] => None
  | p :: rest =>
      if valid_uint32_decimal p then first_invalid rest (S i) else Some (i, p)
  end.

(** The error the parser wraps a failure of part [i] in: part 1 is the
    revision, part 2 the authority, the later ones are sub-authorities. *)
Definition field_error (i : nat) (e : Strconv.NumError) : SIDError :=
  match i with
  | 1%nat => RevisionError e
  | 2%nat => AuthorityError e
  | _ => SubauthorityError e
  end.

(** ** Sample values *)

(** [S-1-5-21-3623811015-3361044348-30300820-1013]. *)
Definition sid_known : RPCSID :=
  mkRPCSID 1 5 (mkArray6 0 0 0 0 0 5)
           [21; 3623811015; 3361044348; 30300820; 1013].

(** Authority [{0,0,0,0,0,5}] and [{1,0,0,0,0,0}], no sub-authority. *)
Definition sid_nt : RPCSID := mkRPCSID 1 0 (mkArray6 0 0 0 0 0 5) [].
Definition sid_big : RPCSID := mkRPCSID 1 0 (mkArray6 1 0 0 0 0 0) [].

(** Sub-authorities [10, 20, 30] with a count of 2 and of 5. *)
Definition sid_count2 : RPCSID := mkRPCSID 1 2 (mkArray6 0 0 0 0 0 5) [10; 20; 30].
Definition sid_count5 : RPCSID := mkRPCSID 1 5 (mkArray6 0 0 0 0 0 5) [10; 20; 30].

(** A well-formed value whose revision is not 1. *)
Definition sid_rev2 : RPCSID := mkRPCSID 2 1 (mkArray6 0 0 0 0 0 5) [21].

(** A large authority with one sub-authority. *)
Definition sid_big_sub : RPCSID := mkRPCSID 1 1 (mkArray6 1 0 0 0 0 0) [7].

(** ["S-1-5"] followed by [n] segments ["-0"]. *)
Fixpoint zero_segments (n : nat) : string :=
  match n with
  | O => EmptyString
  | S n' => String "-" (String "0" (zero_segments n'))
  end.

Definition many_segments (n : nat) : string :=
  ("S-1-5" ++ zero_segments n)%string.

(** * Lemmas *)

(** Take a [Forall] over an explicit list apart. *)
Ltac inv_Forall :=
  repeat match goal with
         | H : Forall _ (_ :: _) |- _ => inversion H; subst; clear H
         | H : Forall _ [] |- _ => clear H
         end.

(** Well-formedness of a concrete value. *)
Ltac wf_concrete :=
  unfold wf_RPCSID, wf_Array6, slice6; cbn;
  repeat match goal with
         | |- _ /\ _ => split
         | |- Forall _ [] => apply Forall_nil
         | |- Forall _ (_ :: _) => apply Forall_cons
         | |- is_uint8 _ => unfold is_uint8; lia
         | |- is_uint32 _ => unfold is_uint32; lia
         | |- _ <= _ < _ => lia
         end.

(** Replace the powers of two that occur in byte arithmetic by numerals. *)
Ltac pow2_consts :=
  change (2 ^ 8) with 256 in *; change (2 ^ 16) with 65536 in *;
  change (2 ^ 24) with 16777216 in *; change (2 ^ 32) with 4294967296 in *;
  change (2 ^ 40) with 1099511627776 in *.

(** ** Strings *)

Lemma append_nil_r (s : string) : (s ++ EmptyString)%string = s.
Proof. induction s as [|c s IH]; simpl; [reflexivity | now rewrite IH]. Qed.

Lemma append_assoc (a b c : string) :
  ((a ++ b) ++ c)%string = (a ++ (b ++ c))%string.
Proof. induction a as [|x a IH]; simpl; [reflexivity | now rewrite IH]. Qed.

Lemma contains_append (c : ascii) (a b : string) :
  contains c (a ++ b)%string = contains c a || contains c b.
Proof.
  induction a as [|x a IH]; simpl; [reflexivity|].
  now rewrite IH, orb_assoc.
Qed.

(** ** [strings.Split] *)

Lemma Split_not_nil (s : string) (sep : ascii) : Strings.Split s sep <> [].
Proof.
  destruct s as [|c s]; simpl; [discriminate|].
  destruct (Ascii.eqb c sep); [discriminate|].
  destruct (Strings.Split s sep); discriminate.
Qed.

Lemma Split_no_sep (p : string) (sep : ascii) :
  contains sep p = false -> Strings.Split p sep = [p].
Proof.
  induction p as [|c p IH]; simpl; [reflexivity|].
  intros Hc. apply orb_false_iff in Hc as [Hc Hp].
  rewrite Hc, (IH Hp). reflexivity.
Qed.

Lemma Split_append_sep (p rest : string) (sep : ascii) :
  contains sep p = false ->
  Strings.Split (p ++ String sep rest)%string sep = p :: Strings.Split rest sep.
Proof.
  induction p as [|c p IH]; simpl.
  - intros _. now rewrite Ascii.eqb_refl.
  - intros Hc. apply orb_false_iff in Hc as [Hc Hp].
    rewrite Hc, (IH Hp). reflexivity.
Qed.

(** ** Bytes and digits *)

Lemma byte_of_ascii_of_byte (b : Z) :
  is_uint8 b -> byte_of_ascii (ascii_of_byte b) = b.
Proof.
  intros [Hlo Hhi]. unfold byte_of_ascii, ascii_of_byte.
  rewrite N_ascii_embedding by lia. now rewrite Z2N.id.
Qed.

Lemma is_digit_range (c : ascii) :
  is_digit c = true <-> 48 <= byte_of_ascii c <= 57.
Proof. unfold is_digit. rewrite andb_true_iff, !Z.leb_le. reflexivity. Qed.

Lemma is_digit_of_byte (d : Z) :
  0 <= d <= 9 -> is_digit (ascii_of_byte (48 + d)) = true.
Proof.
  intros Hd. apply is_digit_range.
  rewrite byte_of_ascii_of_byte by (unfold is_uint8; lia). lia.
Qed.

Lemma is_digit_not_dash (c : ascii) :
  is_digit c = true -> Ascii.eqb c "-" = false.
Proof.
  intros Hd. destruct (Ascii.eqb_spec c "-") as [->|]; [|reflexivity].
  discriminate Hd.
Qed.

Lemma all_digits_no_dash (s : string) :
  all_digits s = true -> contains "-" s = false.
Proof.
  induction s as [|c s IH]; simpl; [reflexivity|].
  intros H. apply andb_true_iff in H as [Hc Hs].
  now rewrite (is_digit_not_dash c Hc), (IH Hs).
Qed.

Lemma all_digits_append (a b : string) :
  all_digits (a ++ b)%string = all_digits a && all_digits b.
Proof.
  induction a as [|c a IH]; simpl; [reflexivity|].
  now rewrite IH, andb_assoc.
Qed.

Lemma dec_value_append (a b : string) (acc : Z) :
  dec_value (a ++ b)%string acc = dec_value b (dec_value a acc).
Proof.
  revert acc. induction a as [|c a IH]; intros acc; simpl; [reflexivity|].
  apply IH.
Qed.

Lemma dec_value_ge (s : string) (acc : Z) :
  all_digits s = true -> 0 <= acc -> acc <= dec_value s acc.
Proof.
  revert acc. induction s as [|c s IH]; intros acc Hs Hacc;
    cbn [dec_value all_digits] in *; [lia|].
  apply andb_true_iff in Hs as [Hc Hs].
  apply is_digit_range in Hc.
  specialize (IH (10 * acc + (byte_of_ascii c - 48)) Hs). lia.
Qed.

(** ** [fmt]: the decimal rendering *)

(** With enough fuel the loop writes, in front of the buffer, a non-empty
    string of digits whose value is [u]. *)
Lemma fmtInteger_step (fuel : nat) (u : Z) (buf : string) :
  Fmt.fmtInteger (S fuel) u buf =
  if 10 <=? u
  then Fmt.fmtInteger fuel (u / 10) (String (ascii_of_byte (48 + u - u / 10 * 10)) buf)
  else String (ascii_of_byte (48 + u)) buf.
Proof. reflexivity. Qed.

Lemma fmtInteger_digits (fuel : nat) :
  forall (u : Z) (buf : string),
    0 <= u < 10 ^ Z.of_nat (S fuel) ->
    exists ds : string,
      Fmt.fmtInteger (S fuel) u buf = (ds ++ buf)%string /\
      ds <> EmptyString /\ all_digits ds = true /\ dec_value ds 0 = u.
Proof.
  assert (Hone : forall u buf, 0 <= u < 10 ->
    exists ds : string,
      String (ascii_of_byte (48 + u)) buf = (ds ++ buf)%string /\
      ds <> EmptyString /\ all_digits ds = true /\ dec_value ds 0 = u).
  { intros u buf Hu. exists (String (ascii_of_byte (48 + u)) EmptyString).
    cbn [String.append all_digits dec_value].
    rewrite is_digit_of_byte by lia.
    rewrite byte_of_ascii_of_byte by (unfold is_uint8; lia).
    repeat split; [discriminate | lia]. }
  induction fuel as [|fuel IH]; intros u buf Hu; rewrite fmtInteger_step.
  - change (10 ^ Z.of_nat 1) with 10 in Hu.
    destruct (Z.leb_spec 10 u) as [Hge|Hlt]; [lia|].
    apply Hone; lia.
  - destruct (Z.leb_spec 10 u) as [Hge|Hlt]; [|apply Hone; lia].
    assert (Hq : 0 <= u / 10 < 10 ^ Z.of_nat (S fuel)).
    { rewrite (Nat2Z.inj_succ (S fuel)), Z.pow_succ_r in Hu by lia.
      split; [apply Z.div_pos; lia | apply Z.div_lt_upper_bound; lia]. }
    set (d := ascii_of_byte (48 + u - u / 10 * 10)).
    destruct (IH (u / 10) (String d buf) Hq) as (ds & Heq & Hne & Hdig & Hval).
    exists (ds ++ String d EmptyString)%string.
    assert (Hd : 0 <= u - u / 10 * 10 <= 9).
    { pose proof (Z.div_mod u 10 ltac:(lia)).
      pose proof (Z.mod_pos_bound u 10 ltac:(lia)). lia. }
    assert (Hdd : is_digit d = true /\ byte_of_ascii d = 48 + u - u / 10 * 10).
    { unfold d. split.
      - replace (48 + u - u / 10 * 10) with (48 + (u - u / 10 * 10)) by lia.
        apply is_digit_of_byte; lia.
      - apply byte_of_ascii_of_byte. unfold is_uint8; lia. }
    destruct Hdd as [Hdig_d Hbyte_d].
    repeat split.
    + rewrite Heq, append_assoc. reflexivity.
    + destruct ds; discriminate.
    + rewrite all_digits_append, Hdig. cbn [all_digits].
      rewrite Hdig_d. reflexivity.
    + rewrite dec_value_append, Hval. cbn [dec_value].
      rewrite Hbyte_d. lia.
Qed.

Lemma Sprintf_d_digits (u : Z) :
  is_uint64 u ->
  Fmt.Sprintf_d u <> EmptyString /\
  all_digits (Fmt.Sprintf_d u) = true /\
  dec_value (Fmt.Sprintf_d u) 0 = u.
Proof.
  intros [Hlo Hhi]. unfold Fmt.Sprintf_d.
  destruct (fmtInteger_digits 19 u EmptyString) as (ds & Heq & Hne & Hdig & Hval).
  { split; [exact Hlo|].
    eapply Z.lt_trans; [exact Hhi|]. reflexivity. }
  rewrite Heq, append_nil_r. auto.
Qed.

Lemma is_uint32_uint64 (u : Z) : is_uint32 u -> is_uint64 u.
Proof. unfold is_uint32, is_uint64. intros [? ?]. split; [lia|].
  eapply Z.lt_trans; [eassumption | reflexivity]. Qed.

(** ** [strconv.ParseUint] in base 10 with 32 bits *)

Lemma maxVal32_eq : maxVal32 = MaxUint32.
Proof. reflexivity. Qed.

Lemma cutoff10_eq : cutoff10 = 1844674407370955162.
Proof. reflexivity. Qed.

Lemma to_uint64_small (x : Z) : 0 <= x < 2 ^ 64 -> to_uint64 x = x.
Proof. intros Hx. unfold to_uint64. now apply Z.mod_small. Qed.

Lemma ParseUint_loop_digit (s0 rest : string) (ch : ascii) (cutoff maxVal n : Z) :
  is_digit ch = true ->
  Strconv.ParseUint_loop s0 (String ch rest) 10 cutoff maxVal n =
  if n >=? cutoff then (maxVal, Some (Strconv.mkNumError s0 Strconv.ErrRange))
  else
    let n' := to_uint64 (n * 10) in
    let n1 := to_uint64 (n' + (byte_of_ascii ch - 48)) in
    if (n1 <? n') || (n1 >? maxVal)
    then (maxVal, Some (Strconv.mkNumError s0 Strconv.ErrRange))
    else Strconv.ParseUint_loop s0 rest 10 cutoff maxVal n1.
Proof.
  intros Hd. cbn [Strconv.ParseUint_loop]. cbv zeta.
  pose proof Hd as Hr. apply is_digit_range in Hr.
  unfold is_digit in Hd. rewrite Hd.
  destruct (Z.geb_spec (byte_of_ascii ch - 48) 10) as [Hge|Hlt]; [lia|].
  reflexivity.
Qed.

Lemma ParseUint_loop_not_digit (s0 rest : string) (ch : ascii) (cutoff maxVal n : Z) :
  is_digit ch = false ->
  Strconv.ParseUint_loop s0 (String ch rest) 10 cutoff maxVal n =
  (0, Some (Strconv.mkNumError s0 Strconv.ErrSyntax)).
Proof.
  intros Hd. cbn [Strconv.ParseUint_loop]. cbv zeta.
  unfold is_digit in Hd. rewrite Hd.
  destruct ((97 <=? Strconv.lower (byte_of_ascii ch)) &&
            (Strconv.lower (byte_of_ascii ch) <=? 122)) eqn:Hl; [|reflexivity].
  apply andb_true_iff in Hl as [Hlo _]. apply Z.leb_le in Hlo.
  destruct (Z.geb_spec (Strconv.lower (byte_of_ascii ch) - 97 + 10) 10); [|lia].
  reflexivity.
Qed.

(** On digits whose value fits, the loop returns that value. *)
Lemma ParseUint_loop_value (s0 cs : string) :
  forall n : Z,
    all_digits cs = true -> 0 <= n -> dec_value cs n <= maxVal32 ->
    Strconv.ParseUint_loop s0 cs 10 cutoff10 maxVal32 n = (dec_value cs n, None).
Proof.
  induction cs as [|ch cs IH]; intros n Hdig Hn Hval; [reflexivity|].
  cbn [all_digits] in Hdig. apply andb_true_iff in Hdig as [Hch Hcs].
  cbn [dec_value] in Hval |- *.
  pose proof Hch as Hr. apply is_digit_range in Hr.
  set (d := byte_of_ascii ch - 48) in *.
  assert (Hn1 : 10 * n + d <= maxVal32).
  { etransitivity; [apply (dec_value_ge cs); [exact Hcs | lia] | exact Hval]. }
  rewrite maxVal32_eq in Hn1. unfold MaxUint32 in Hn1.
  rewrite ParseUint_loop_digit by exact Hch. cbv zeta. fold d.
  destruct (Z.geb_spec n cutoff10) as [Hge|_]; [rewrite cutoff10_eq in Hge; lia|].
  rewrite (to_uint64_small (n * 10)) by lia.
  rewrite (to_uint64_small (n * 10 + d)) by lia.
  destruct (Z.ltb_spec (n * 10 + d) (n * 10)) as [Hlt|_]; [lia|].
  destruct (Z.gtb_spec (n * 10 + d) maxVal32) as [Hgt|_];
    [rewrite maxVal32_eq in Hgt; unfold MaxUint32 in Hgt; lia|].
  cbn [orb]. rewrite IH; [f_equal; f_equal; lia | exact Hcs | lia |].
  replace (n * 10 + d) with (10 * n + d) by lia. exact Hval.
Qed.

(** On anything else it stops with an error that carries the input. *)
Lemma ParseUint_loop_error (s0 cs : string) :
  forall n : Z,
    0 <= n <= maxVal32 ->
    all_digits cs && (dec_value cs n <=? maxVal32) = false ->
    exists v k,
      Strconv.ParseUint_loop s0 cs 10 cutoff10 maxVal32 n =
      (v, Some (Strconv.mkNumError s0 k)).
Proof.
  induction cs as [|ch cs IH]; intros n Hn Hbad.
  - cbn [all_digits dec_value andb] in Hbad. apply Z.leb_gt in Hbad. lia.
  - cbn [all_digits dec_value] in Hbad.
    destruct (is_digit ch) eqn:Hch.
    + pose proof Hch as Hr. apply is_digit_range in Hr.
      set (d := byte_of_ascii ch - 48) in *.
      rewrite maxVal32_eq in Hn. unfold MaxUint32 in Hn.
      rewrite ParseUint_loop_digit by exact Hch. cbv zeta. fold d.
      destruct (Z.geb_spec n cutoff10) as [Hge|_]; [rewrite cutoff10_eq in Hge; lia|].
      rewrite (to_uint64_small (n * 10)) by lia.
      rewrite (to_uint64_small (n * 10 + d)) by lia.
      destruct (Z.ltb_spec (n * 10 + d) (n * 10)) as [Hlt|_]; [lia|].
      destruct (Z.gtb_spec (n * 10 + d) maxVal32) as [Hgt|Hle]; cbn [orb].
      * eauto.
      * apply IH; [lia|]. cbn [andb] in Hbad.
        replace (n * 10 + d) with (10 * n + d) by lia. exact Hbad.
    + rewrite ParseUint_loop_not_digit by exact Hch. eauto.
Qed.

Lemma ParseUint_valid (p : string) :
  valid_uint32_decimal p = true ->
  Strconv.ParseUint p 10 32 = (dec_value p 0, None).
Proof.
  destruct p as [|ch cs]; [discriminate|].
  unfold valid_uint32_decimal. intros Hv.
  apply andb_true_iff in Hv as [Hdig Hval]. apply Z.leb_le in Hval.
  unfold Strconv.ParseUint.
  change (maxUint64 / 10 + 1) with cutoff10. change (2 ^ 32 - 1) with maxVal32.
  apply ParseUint_loop_value; [exact Hdig | lia | now rewrite maxVal32_eq].
Qed.

Lemma ParseUint_invalid (p : string) :
  valid_uint32_decimal p = false ->
  exists v k, Strconv.ParseUint p 10 32 = (v, Some (Strconv.mkNumError p k)).
Proof.
  destruct p as [|ch cs]; [intros _; cbn; eauto|].
  unfold valid_uint32_decimal. intros Hv.
  unfold Strconv.ParseUint.
  change (maxUint64 / 10 + 1) with cutoff10. change (2 ^ 32 - 1) with maxVal32.
  apply ParseUint_loop_error; [rewrite maxVal32_eq; unfold MaxUint32; lia|].
  rewrite maxVal32_eq. exact Hv.
Qed.

(** [ParseUint] accepts exactly the valid decimals. *)
Lemma ParseUint_ok_iff (p : string) :
  snd (Strconv.ParseUint p 10 32) = None <-> valid_uint32_decimal p = true.
Proof.
  split.
  - intros Hok. destruct (valid_uint32_decimal p) eqn:Hv; [reflexivity|].
    destruct (ParseUint_invalid p Hv) as (v & k & Heq).
    rewrite Heq in Hok. discriminate.
  - intros Hv. now rewrite (ParseUint_valid p Hv).
Qed.

(** The rendering of a 32-bit number is a valid decimal of that value. *)
Lemma Sprintf_d_valid (u : Z) :
  is_uint32 u ->
  valid_uint32_decimal (Fmt.Sprintf_d u) = true /\
  dec_value (Fmt.Sprintf_d u) 0 = u.
Proof.
  intros Hu.
  destruct (Sprintf_d_digits u (is_uint32_uint64 u Hu)) as (Hne & Hdig & Hval).
  split; [|exact Hval].
  unfold valid_uint32_decimal.
  destruct (Fmt.Sprintf_d u) eqn:E; [congruence|].
  rewrite Hdig, Hval. cbn [andb]. apply Z.leb_le.
  destruct Hu as [_ Hhi]. unfold MaxUint32.
  change (2 ^ 32) with 4294967296 in Hhi. lia.
Qed.

(** ** Bytes of an integer *)

Lemma land_below_pow2 (a c k : Z) :
  0 <= k -> 0 <= a < 2 ^ k -> Z.land a (c * 2 ^ k) = 0.
Proof.
  intros Hk Ha. apply Z.bits_inj'. intros n Hn.
  rewrite Z.land_spec, Z.bits_0.
  destruct (Z.lt_ge_cases n k) as [Hlt|Hge].
  - rewrite Z.mul_pow2_bits_low by lia. apply andb_false_r.
  - rewrite <- (Z.mod_small a (2 ^ k)) by lia.
    rewrite Z.mod_pow2_bits_high by lia. reflexivity.
Qed.

(** [lor] of a value below [2^k] and a multiple of [2^k] is their sum. *)
Lemma lor_disjoint_add (a c k : Z) :
  0 <= k -> 0 <= a < 2 ^ k -> Z.lor a (c * 2 ^ k) = a + c * 2 ^ k.
Proof.
  intros Hk Ha. pose proof (land_below_pow2 a c k Hk Ha) as Hl.
  rewrite <- (Z.lxor_lor _ _ Hl). symmetry. now apply Z.add_nocarry_lxor.
Qed.

Lemma lor_low (a X c k : Z) :
  0 <= k -> 0 <= a < 2 ^ k -> X = c * 2 ^ k -> Z.lor a X = a + X.
Proof. intros Hk Ha ->. now apply lor_disjoint_add. Qed.

Lemma BigEndian_Uint64_value (b0 b1 b2 b3 b4 b5 b6 b7 : Z) (tl : list byte) :
  Forall is_uint8 [b0; b1; b2; b3; b4; b5; b6; b7] ->
  Binary.BigEndian_Uint64 (b0 :: b1 :: b2 :: b3 :: b4 :: b5 :: b6 :: b7 :: tl) =
  Some (b7 + (b6 * 2 ^ 8 + (b5 * 2 ^ 16 + (b4 * 2 ^ 24 + (b3 * 2 ^ 32 +
        (b2 * 2 ^ 40 + (b1 * 2 ^ 48 + b0 * 2 ^ 56))))))).
Proof.
  intros Hb. inv_Forall.
  unfold is_uint8 in *. unfold Binary.BigEndian_Uint64. f_equal.
  rewrite !Z.shiftl_mul_pow2 by lia.
  rewrite (lor_low (b1 * 2 ^ 48) _ b0 56) by (lia || ring).
  rewrite (lor_low (b2 * 2 ^ 40) _ (b1 + b0 * 2 ^ 8) 48) by (lia || ring).
  rewrite (lor_low (b3 * 2 ^ 32) _ (b2 + b1 * 2 ^ 8 + b0 * 2 ^ 16) 40)
    by (lia || ring).
  rewrite (lor_low (b4 * 2 ^ 24) _ (b3 + b2 * 2 ^ 8 + b1 * 2 ^ 16 + b0 * 2 ^ 24) 32)
    by (lia || ring).
  rewrite (lor_low (b5 * 2 ^ 16) _
             (b4 + b3 * 2 ^ 8 + b2 * 2 ^ 16 + b1 * 2 ^ 24 + b0 * 2 ^ 32) 24)
    by (lia || ring).
  rewrite (lor_low (b6 * 2 ^ 8) _
             (b5 + b4 * 2 ^ 8 + b3 * 2 ^ 16 + b2 * 2 ^ 24 + b1 * 2 ^ 32 + b0 * 2 ^ 40) 16)
    by (lia || ring).
  rewrite (lor_low b7 _
             (b6 + b5 * 2 ^ 8 + b4 * 2 ^ 16 + b3 * 2 ^ 24 + b2 * 2 ^ 32 +
              b1 * 2 ^ 40 + b0 * 2 ^ 48) 8)
    by (lia || ring).
  reflexivity.
Qed.

(** The value [String] compares with [math.MaxUint32]. *)
Lemma authority_Uint64 (a : Array6) :
  wf_Array6 a ->
  Binary.BigEndian_Uint64 ([0; 0] ++ slice6 a) = Some (authority_value a).
Proof.
  intros Ha. unfold slice6 in *. cbn [app].
  rewrite BigEndian_Uint64_value.
  - unfold authority_value. f_equal. ring.
  - unfold wf_Array6, slice6 in Ha. inv_Forall.
    repeat (apply Forall_cons; [first [assumption | unfold is_uint8; lia]|]).
    apply Forall_nil.
Qed.

Lemma authority_value_range (a : Array6) :
  wf_Array6 a -> 0 <= authority_value a < 2 ^ 48.
Proof.
  unfold wf_Array6, slice6, authority_value. intros Ha. inv_Forall.
  unfold is_uint8 in *. pow2_consts. change (2 ^ 48) with 281474976710656. lia.
Qed.

(** A small authority has two leading zero bytes, and the parser's
    re-encoding of its value restores all six bytes. *)
Lemma authority_bytes_restored (a dst : Array6) :
  wf_Array6 a -> authority_value a <= MaxUint32 ->
  copy6 dst (Binary.BigEndian_AppendUint32 [0; 0] (to_uint32 (authority_value a))) = a.
Proof.
  intros Ha Hsmall. destruct a as [a0 a1 a2 a3 a4 a5].
  unfold wf_Array6, slice6, authority_value, MaxUint32 in *. cbn [el0 el1 el2 el3 el4 el5] in *.
  inv_Forall. unfold is_uint8 in *. pow2_consts.
  assert (a0 = 0) by lia. assert (a1 = 0) by lia. subst a0 a1.
  unfold Binary.BigEndian_AppendUint32, copy6, to_uint32, to_uint8. cbn [app nth].
  rewrite !Z.shiftr_div_pow2 by lia. pow2_consts. cbn [Z.mul Z.add].
  rewrite (Z.mod_small _ 4294967296) by lia.
  f_equal; Z.div_mod_to_equations; lia.
Qed.

(** [LittleEndian_Uint32] is the little-endian encoding on four bytes. *)
Lemma LittleEndian_Uint32_spec (v : Z) :
  is_uint32 v ->
  List.length (Binary.LittleEndian_Uint32 v) = 4%nat /\
  Forall is_uint8 (Binary.LittleEndian_Uint32 v) /\
  le_value (Binary.LittleEndian_Uint32 v) = v.
Proof.
  intros Hv. unfold is_uint32 in Hv. pow2_consts.
  unfold Binary.LittleEndian_Uint32, to_uint8, le_value, is_uint8.
  rewrite !Z.shiftr_div_pow2 by lia. pow2_consts. cbn [fold_right].
  split; [reflexivity|]. split.
  - repeat constructor; Z.div_mod_to_equations; lia.
  - Z.div_mod_to_equations. lia.
Qed.

(** ** [hex.EncodeToString] *)

Lemma hexdigit_lower_hex (i : Z) :
  0 <= i < 16 -> is_lower_hex (Hex.hexdigit i) = true.
Proof.
  intros Hi.
  assert (Hc : i = 0 \/ i = 1 \/ i = 2 \/ i = 3 \/ i = 4 \/ i = 5 \/ i = 6 \/
               i = 7 \/ i = 8 \/ i = 9 \/ i = 10 \/ i = 11 \/ i = 12 \/
               i = 13 \/ i = 14 \/ i = 15) by lia.
  repeat (destruct Hc as [-> | Hc]; [reflexivity|]). subst i. reflexivity.
Qed.

Lemma is_lower_hex_not_dash (c : ascii) :
  is_lower_hex c = true -> Ascii.eqb c "-" = false.
Proof.
  intros Hc. destruct (Ascii.eqb_spec c "-") as [->|]; [|reflexivity].
  discriminate Hc.
Qed.

Lemma all_lower_hex_no_dash (s : string) :
  all_lower_hex s = true -> contains "-" s = false.
Proof.
  induction s as [|c s IH]; cbn [all_lower_hex contains]; [reflexivity|].
  intros H. apply andb_true_iff in H as [Hc Hs].
  now rewrite (is_lower_hex_not_dash c Hc), (IH Hs).
Qed.

Lemma nibbles_range (v : Z) :
  is_uint8 v -> 0 <= Z.shiftr v 4 < 16 /\ 0 <= Z.land v 15 < 16.
Proof.
  intros Hv. unfold is_uint8 in Hv.
  rewrite Z.shiftr_div_pow2 by lia. change 15 with (Z.ones 4).
  rewrite Z.land_ones by lia. change (2 ^ 4) with 16.
  split; Z.div_mod_to_equations; lia.
Qed.

Lemma EncodeToString_spec (src : list byte) :
  Forall is_uint8 src ->
  String.length (Hex.EncodeToString src) = (2 * List.length src)%nat /\
  all_lower_hex (Hex.EncodeToString src) = true.
Proof.
  induction 1 as [|v src Hv _ [IHlen IHhex]]; [split; reflexivity|].
  destruct (nibbles_range v Hv) as [Hhi Hlo].
  cbn [Hex.EncodeToString String.length all_lower_hex List.length].
  rewrite IHlen, IHhex, !hexdigit_lower_hex by assumption.
  split; [lia | reflexivity].
Qed.

(** ** The shape of the rendered string *)

Lemma fold_left_render_subs (subs : list Z) :
  forall strb : string,
    fold_left (fun strb sub => (strb ++ ("-" ++ Fmt.Sprintf_d sub))%string) subs strb
    = (strb ++ render_subs subs)%string.
Proof.
  induction subs as [|sub subs IH]; intros strb; cbn [fold_left render_subs].
  - now rewrite append_nil_r.
  - rewrite IH, append_assoc. reflexivity.
Qed.

(** [String] never panics: the slice handed to [Uint64] has 8 bytes. *)
Lemma RPCSID_String_total (s : RPCSID) :
  exists auth : string,
    RPCSID_String s = Some ("S-1-" ++ (auth ++ render_subs (SubAuthority s)))%string.
Proof.
  unfold RPCSID_String.
  destruct (Binary.BigEndian_Uint64 ([0; 0] ++ slice6 (IdentifierAuthority s)))
    as [i|] eqn:Hi; [|discriminate Hi].
  rewrite fold_left_render_subs.
  destruct (i >? MaxUint32); eexists; rewrite append_assoc; reflexivity.
Qed.

Lemma RPCSID_String_wf (s : RPCSID) :
  wf_Array6 (IdentifierAuthority s) ->
  RPCSID_String s =
  Some ("S-1-" ++ (render_authority (IdentifierAuthority s)
                   ++ render_subs (SubAuthority s)))%string.
Proof.
  intros Ha. unfold RPCSID_String, render_authority.
  rewrite (authority_Uint64 _ Ha), fold_left_render_subs.
  destruct (authority_value (IdentifierAuthority s) >? MaxUint32);
    rewrite append_assoc; reflexivity.
Qed.

Lemma render_authority_no_dash (a : Array6) :
  wf_Array6 a -> contains "-" (render_authority a) = false.
Proof.
  intros Ha. unfold render_authority.
  destruct (authority_value a >? MaxUint32).
  - cbn [String.append contains Ascii.eqb Bool.eqb orb].
    apply all_lower_hex_no_dash, EncodeToString_spec, Ha.
  - apply all_digits_no_dash, Sprintf_d_digits.
    pose proof (authority_value_range a Ha) as [Hlo Hhi]. split; [exact Hlo|].
    eapply Z.lt_trans; [exact Hhi | reflexivity].
Qed.

Lemma Split_render_subs (subs : list Z) :
  forall first : string,
    contains "-" first = false -> Forall is_uint32 subs ->
    Strings.Split (first ++ render_subs subs)%string "-"
    = first :: map Fmt.Sprintf_d subs.
Proof.
  induction subs as [|sub subs IH]; intros first Hfirst Hsubs;
    cbn [render_subs map].
  - rewrite append_nil_r. now apply Split_no_sep.
  - inversion Hsubs as [|? ? Hsub Hrest]; subst.
    change ("-" ++ (Fmt.Sprintf_d sub ++ render_subs subs))%string
      with (String "-" (Fmt.Sprintf_d sub ++ render_subs subs)%string).
    rewrite Split_append_sep by exact Hfirst. f_equal.
    apply IH; [|exact Hrest].
    apply all_digits_no_dash, Sprintf_d_digits, is_uint32_uint64, Hsub.
Qed.

(** The parts the parser sees in a rendered SID. *)
Lemma Split_rendered (a : Array6) (subs : list Z) :
  wf_Array6 a -> Forall is_uint32 subs ->
  Strings.Split ("S-1-" ++ (render_authority a ++ render_subs subs))%string "-"
  = "S" :: "1" :: render_authority a :: map Fmt.Sprintf_d subs.
Proof.
  intros Ha Hsubs.
  change ("S-1-" ++ (render_authority a ++ render_subs subs))%string
    with ("S" ++ String "-" ("1" ++ String "-"
            (render_authority a ++ render_subs subs)))%string.
  rewrite Split_append_sep by reflexivity.
  rewrite Split_append_sep by reflexivity.
  rewrite Split_render_subs by (auto using render_authority_no_dash).
  reflexivity.
Qed.

(** ** The parser, case by case *)

Lemma valid_part_value (p : string) :
  valid_uint32_decimal p = true -> is_uint32 (part_value p).
Proof.
  destruct p as [|ch cs]; [discriminate|]. unfold valid_uint32_decimal.
  intros Hv. apply andb_true_iff in Hv as [Hdig Hval]. apply Z.leb_le in Hval.
  unfold is_uint32, part_value. unfold MaxUint32 in Hval. pow2_consts. split; [|lia].
  apply (dec_value_ge _ 0 Hdig). lia.
Qed.

Lemma to_uint32_small (x : Z) : is_uint32 x -> to_uint32 x = x.
Proof. intros Hx. unfold to_uint32. now apply Z.mod_small. Qed.

(** The loop over valid parts: every value is appended, and the running
    count is the number of parts modulo 256. *)
Lemma ConvertStrToSID_loop_valid (parts : list string) :
  forall (subCount : Z) (subAuths : list Z),
    forallb valid_uint32_decimal parts = true ->
    ConvertStrToSID_loop parts subCount subAuths =
    inl (match parts with
         | [] => subCount
         | _ => to_uint8 (subCount + Z.of_nat (List.length parts))
         end,
         subAuths ++ map part_value parts).
Proof.
  induction parts as [|part rest IH]; intros c acc Hv;
    cbn [ConvertStrToSID_loop forallb map] in *.
  - now rewrite app_nil_r.
  - apply andb_true_iff in Hv as [Hp Hrest].
    rewrite (ParseUint_valid part Hp).
    rewrite to_uint32_small by (apply valid_part_value, Hp).
    rewrite (IH _ _ Hrest), <- app_assoc. cbn [app]. f_equal. f_equal.
    fold (part_value part).
    destruct rest as [|part' rest']; [f_equal; cbn; lia|].
    unfold to_uint8. rewrite Zplus_mod_idemp_l. f_equal.
    cbn [List.length]. lia.
Qed.

(** The loop stops at the first part that is not valid. *)
Lemma ConvertStrToSID_loop_invalid (parts : list string) :
  forall (subCount : Z) (subAuths : list Z),
    forallb valid_uint32_decimal parts = false ->
    exists e, ConvertStrToSID_loop parts subCount subAuths = inr e /\
              In (Strconv.Num e) parts /\
              valid_uint32_decimal (Strconv.Num e) = false.
Proof.
  induction parts as [|part rest IH]; intros c acc Hv;
    cbn [ConvertStrToSID_loop forallb] in *; [discriminate|].
  destruct (valid_uint32_decimal part) eqn:Hp.
  - rewrite (ParseUint_valid part Hp).
    destruct (IH (to_uint8 (c + 1)) (acc ++ [to_uint32 (dec_value part 0)]) Hv)
      as (e & Heq & Hin & Hbad).
    exists e. repeat split; [exact Heq | now right | exact Hbad].
  - destruct (ParseUint_invalid part Hp) as (v & k & Heq). rewrite Heq.
    eexists. repeat split; [now left | exact Hp].
Qed.

Section Parser.

Variables (s p0 p1 p2 p3 : string) (ps : list string).
Hypothesis Hparts : Strings.Split s "-" = p0 :: p1 :: p2 :: p3 :: ps.

Lemma ConvertStrToSID_bad_revision :
  valid_uint32_decimal p1 = false ->
  exists v k, Strconv.ParseUint p1 10 32 = (v, Some (Strconv.mkNumError p1 k)) /\
    ConvertStrToSID s = (None, Some (RevisionError (Strconv.mkNumError p1 k))).
Proof.
  intros H1. destruct (ParseUint_invalid p1 H1) as (v & k & Heq).
  exists v, k. split; [exact Heq|].
  unfold ConvertStrToSID. rewrite Hparts. cbn [List.length Nat.ltb Nat.leb nth].
  rewrite Heq. reflexivity.
Qed.

Lemma ConvertStrToSID_bad_authority :
  valid_uint32_decimal p1 = true -> valid_uint32_decimal p2 = false ->
  exists v k, Strconv.ParseUint p2 10 32 = (v, Some (Strconv.mkNumError p2 k)) /\
    ConvertStrToSID s = (None, Some (AuthorityError (Strconv.mkNumError p2 k))).
Proof.
  intros H1 H2. destruct (ParseUint_invalid p2 H2) as (v & k & Heq).
  exists v, k. split; [exact Heq|].
  unfold ConvertStrToSID. rewrite Hparts. cbn [List.length Nat.ltb Nat.leb nth].
  rewrite (ParseUint_valid p1 H1), Heq. reflexivity.
Qed.

Lemma ConvertStrToSID_bad_subauthority :
  valid_uint32_decimal p1 = true -> valid_uint32_decimal p2 = true ->
  forallb valid_uint32_decimal (p3 :: ps) = false ->
  exists e, In (Strconv.Num e) (p3 :: ps) /\
    valid_uint32_decimal (Strconv.Num e) = false /\
    ConvertStrToSID s = (None, Some (SubauthorityError e)).
Proof.
  intros H1 H2 H3.
  destruct (ConvertStrToSID_loop_invalid (p3 :: ps) 0 [] H3) as (e & Heq & Hin & Hbad).
  exists e. repeat split; [exact Hin | exact Hbad |].
  unfold ConvertStrToSID. rewrite Hparts. cbn [List.length Nat.ltb Nat.leb nth skipn].
  rewrite (ParseUint_valid p1 H1), (ParseUint_valid p2 H2), Heq. reflexivity.
Qed.

Lemma ConvertStrToSID_valid :
  valid_uint32_decimal p1 = true -> valid_uint32_decimal p2 = true ->
  forallb valid_uint32_decimal (p3 :: ps) = true ->
  ConvertStrToSID s = (Some (parsed_sid p1 p2 (p3 :: ps)), None).
Proof.
  intros H1 H2 H3.
  unfold ConvertStrToSID. rewrite Hparts. cbn [List.length Nat.ltb Nat.leb nth skipn].
  rewrite (ParseUint_valid p1 H1), (ParseUint_valid p2 H2).
  rewrite (ConvertStrToSID_loop_valid (p3 :: ps) 0 [] H3).
  rewrite to_uint32_small by (apply valid_part_value, H2).
  reflexivity.
Qed.

End Parser.

Lemma ConvertStrToSID_short (s : string) :
  (List.length (Strings.Split s "-") < 4)%nat ->
  ConvertStrToSID s = (Some zero_RPCSID, Some InvalidSIDRepresentation).
Proof.
  intros Hlen. unfold ConvertStrToSID.
  apply Nat.ltb_lt in Hlen. rewrite Hlen. reflexivity.
Qed.

(** Four parts or more: the input splits as [p0-p1-p2-p3-...]. *)
Lemma four_parts (parts : list string) :
  (4 <= List.length parts)%nat ->
  exists p0 p1 p2 p3 ps, parts = p0 :: p1 :: p2 :: p3 :: ps.
Proof.
  destruct parts as [|p0 [|p1 [|p2 [|p3 ps]]]]; cbn [List.length]; try lia.
  intros _. now exists p0, p1, p2, p3, ps.
Qed.

(** ** [ToWriter] and the sequence of writes *)

Lemma skipn_nth_error {A : Type} (l : list A) :
  forall (i : nat) (x : A),
    nth_error l i = Some x -> skipn i l = x :: skipn (S i) l.
Proof.
  induction l as [|y l IH]; intros [|i] x Hx; try discriminate.
  - now injection Hx as ->.
  - cbn [nth_error] in Hx. rewrite skipn_cons. now apply IH.
Qed.

Section ToWriterLemmas.

Context {W : Type} `{IO.Writer W}.

Lemma ToWriter_loop_chunks (s : RPCSID) (todo : nat) :
  forall (i : nat) (w : W),
    (i <= List.length (SubAuthority s))%nat ->
    ToWriter_loop s todo i w =
    match write_chunks w (sub_chunks (firstn todo (skipn i (SubAuthority s)))) with
    | (w', Some e) => (w', Returns (Some e))
    | (w', None) =>
        (w', if (i + todo <=? List.length (SubAuthority s))%nat
             then Returns None
             else Panics (IndexOutOfRange
                            (Z.of_nat (List.length (SubAuthority s)))
                            (Z.of_nat (List.length (SubAuthority s)))))
    end.
Proof.
  induction todo as [|todo IH]; intros i w Hi; cbn [ToWriter_loop].
  - cbn [firstn sub_chunks map write_chunks].
    rewrite Nat.add_0_r. apply Nat.leb_le in Hi. now rewrite Hi.
  - destruct (nth_error (SubAuthority s) i) as [x|] eqn:Hx.
    + rewrite (skipn_nth_error _ _ _ Hx).
      cbn [firstn sub_chunks map write_chunks].
      unfold BinaryWrite.Write. cbn [BinaryWrite.encode].
      destruct (IO.Write w (Binary.LittleEndian_Uint32 x)) as [w' [n [e|]]];
        [reflexivity|].
      assert (Hlt : (i < List.length (SubAuthority s))%nat)
        by (apply nth_error_Some; congruence).
      rewrite IH by lia. unfold sub_chunks.
      replace (S i + todo)%nat with (i + S todo)%nat by lia. reflexivity.
    + apply nth_error_None in Hx.
      assert (i = List.length (SubAuthority s)) by lia. subst i.
      rewrite skipn_all. cbn [firstn sub_chunks map write_chunks].
      destruct (Nat.leb_spec (List.length (SubAuthority s) + S todo)
                             (List.length (SubAuthority s))); [lia|].
      reflexivity.
Qed.

(** The method is the chunk sequence followed by the way the loop ends. *)
Lemma ToWriter_chunks (s : RPCSID) (w : W) :
  RPCSID_ToWriter s w = ToWriter_by_chunks s w.
Proof.
  unfold RPCSID_ToWriter, ToWriter_by_chunks, wire_chunks, header_chunks.
  cbn [app write_chunks]. unfold BinaryWrite.Write. cbn [BinaryWrite.encode].
  destruct (IO.Write w [Revision s]) as [w1 [n1 [e|]]]; [reflexivity|].
  destruct (IO.Write w1 [SubAuthorityCount s]) as [w2 [n2 [e|]]]; [reflexivity|].
  destruct (IO.Write w2 (slice6 (IdentifierAuthority s))) as [w3 [n3 [e|]]];
    [reflexivity|].
  rewrite ToWriter_loop_chunks by lia. cbn [skipn Nat.add]. reflexivity.
Qed.

End ToWriterLemmas.

Lemma write_chunks_Buffer (chunks : list (list byte)) :
  forall buf : IO.Buffer,
    write_chunks buf chunks = (buf ++ List.concat chunks, None).
Proof.
  induction chunks as [|p chunks IH]; intros buf; cbn [write_chunks List.concat].
  - now rewrite app_nil_r.
  - cbn [IO.Write IO.Buffer_Writer]. rewrite IH, <- app_assoc. reflexivity.
Qed.

Lemma ToWriter_Buffer (s : RPCSID) (buf : IO.Buffer) :
  RPCSID_ToWriter s buf = (buf ++ wire_bytes s, loop_end s).
Proof.
  rewrite ToWriter_chunks. unfold ToWriter_by_chunks.
  rewrite write_chunks_Buffer. reflexivity.
Qed.

Lemma length_concat_sub_chunks (subs : list Z) :
  List.length (List.concat (sub_chunks subs)) = (4 * List.length subs)%nat.
Proof.
  induction subs as [|x subs IH]; [reflexivity|].
  cbn [sub_chunks map List.concat]. fold (sub_chunks subs).
  rewrite length_app, IH. cbn [List.length Binary.LittleEndian_Uint32]. lia.
Qed.

Lemma wire_bytes_layout (s : RPCSID) :
  wire_bytes s =
  [Revision s; SubAuthorityCount s] ++ slice6 (IdentifierAuthority s) ++
  flat_map Binary.LittleEndian_Uint32
    (firstn (Z.to_nat (SubAuthorityCount s)) (SubAuthority s)).
Proof.
  unfold wire_bytes, wire_chunks, header_chunks, sub_chunks.
  rewrite concat_app, flat_map_concat_map. reflexivity.
Qed.

Lemma hexdigit_value (i : Z) :
  0 <= i < 16 -> hex_char_value (Hex.hexdigit i) = i.
Proof.
  intros Hi.
  assert (Hc : i = 0 \/ i = 1 \/ i = 2 \/ i = 3 \/ i = 4 \/ i = 5 \/ i = 6 \/
               i = 7 \/ i = 8 \/ i = 9 \/ i = 10 \/ i = 11 \/ i = 12 \/
               i = 13 \/ i = 14 \/ i = 15) by lia.
  repeat (destruct Hc as [-> | Hc]; [reflexivity|]). subst i. reflexivity.
Qed.

(** The hexadecimal string denotes the bytes it was made from. *)
Lemma hex_decode_EncodeToString (src : list byte) :
  Forall is_uint8 src -> hex_decode (Hex.EncodeToString src) = src.
Proof.
  induction 1 as [|v src Hv _ IH]; [reflexivity|].
  destruct (nibbles_range v Hv) as [Hhi Hlo].
  cbn [Hex.EncodeToString hex_decode].
  rewrite IH, !hexdigit_value by assumption. f_equal.
  unfold is_uint8 in Hv.
  rewrite Z.shiftr_div_pow2 by lia. change 15 with (Z.ones 4).
  rewrite Z.land_ones by lia. change (2 ^ 4) with 16.
  Z.div_mod_to_equations. lia.
Qed.

(** ** Auxiliary facts for the claims *)

Lemma map_part_value_Sprintf_d (subs : list Z) :
  Forall is_uint32 subs ->
  forallb valid_uint32_decimal (map Fmt.Sprintf_d subs) = true /\
  map part_value (map Fmt.Sprintf_d subs) = subs.
Proof.
  induction 1 as [|sub subs Hsub _ [IHv IHm]]; [split; reflexivity|].
  destruct (Sprintf_d_valid sub Hsub) as [Hv Hval].
  cbn [map forallb]. rewrite Hv, IHv, IHm. unfold part_value. rewrite Hval.
  split; reflexivity.
Qed.

Lemma Forall_firstn {A : Type} (P : A -> Prop) (n : nat) (l : list A) :
  Forall P l -> Forall P (firstn n l).
Proof.
  intros Hl. rewrite <- (firstn_skipn n l) in Hl.
  now apply Forall_app in Hl.
Qed.

(** Every run of the parser is one of three: too few parts, all of the
    parts 1.. valid, or a conversion error with a nil result. *)
Lemma ConvertStrToSID_cases (s : string) :
  ((List.length (Strings.Split s "-") < 4)%nat /\
   ConvertStrToSID s = (Some zero_RPCSID, Some InvalidSIDRepresentation)) \/
  (exists p0 p1 p2 p3 ps,
      Strings.Split s "-" = p0 :: p1 :: p2 :: p3 :: ps /\
      ((forallb valid_uint32_decimal (p1 :: p2 :: p3 :: ps) = true /\
        ConvertStrToSID s = (Some (parsed_sid p1 p2 (p3 :: ps)), None)) \/
       (forallb valid_uint32_decimal (p1 :: p2 :: p3 :: ps) = false /\
        exists e, is_conversion_error e = true /\
                  ConvertStrToSID s = (None, Some e)))).
Proof.
  destruct (Nat.lt_ge_cases (List.length (Strings.Split s "-")) 4) as [Hlt|Hge].
  - left. split; [exact Hlt | now apply ConvertStrToSID_short].
  - right. destruct (four_parts _ Hge) as (p0 & p1 & p2 & p3 & ps & Hparts).
    exists p0, p1, p2, p3, ps. split; [exact Hparts|].
    cbn [forallb].
    destruct (valid_uint32_decimal p1) eqn:H1.
    + destruct (valid_uint32_decimal p2) eqn:H2.
      * destruct (valid_uint32_decimal p3 && forallb valid_uint32_decimal ps) eqn:H3.
        -- left. split; [reflexivity|].
           now apply (ConvertStrToSID_valid s p0 p1 p2 p3 ps).
        -- right. split; [reflexivity|].
           destruct (ConvertStrToSID_bad_subauthority s p0 p1 p2 p3 ps Hparts H1 H2 H3)
             as (e & _ & _ & Heq).
           eexists. split; [|exact Heq]. reflexivity.
      * right. split; [reflexivity|].
        destruct (ConvertStrToSID_bad_authority s p0 p1 p2 p3 ps Hparts H1 H2)
          as (v & k & _ & Heq).
        eexists. split; [|exact Heq]. reflexivity.
    + right. split; [reflexivity|].
      destruct (ConvertStrToSID_bad_revision s p0 p1 p2 p3 ps Hparts H1)
        as (v & k & _ & Heq).
      eexists. split; [|exact Heq]. reflexivity.
Qed.

(** On success the count field is the number of sub-authorities modulo
    256: the two agree up to 255 sub-authority parts. *)
Lemma ConvertStrToSID_count (s : string) (sid : RPCSID) :
  ConvertStrToSID s = (Some sid, None) ->
  SubAuthorityCount sid = Z.of_nat (List.length (SubAuthority sid)) mod 256 /\
  List.length (SubAuthority sid) = (List.length (Strings.Split s "-") - 3)%nat.
Proof.
  intros Hok.
  destruct (ConvertStrToSID_cases s)
    as [[_ Heq] | (p0 & p1 & p2 & p3 & ps & Hparts & [[_ Heq] | [_ (e & _ & Heq)]])];
    rewrite Heq in Hok; try discriminate Hok.
  injection Hok as <-. rewrite Hparts.
  unfold parsed_sid. cbn [SubAuthorityCount SubAuthority].
  rewrite length_map. split; [reflexivity|]. cbn [List.length]. lia.
Qed.

Lemma ParseUint_hex_form (h : string) :
  Strconv.ParseUint ("0x" ++ h)%string 10 32 =
  (0, Some (Strconv.mkNumError ("0x" ++ h)%string Strconv.ErrSyntax)).
Proof. reflexivity. Qed.

(** A numeric conversion failure returns a nil SID. *)
Lemma ConvertStrToSID_conversion_error_nil (s : string) (e : SIDError) :
  snd (ConvertStrToSID s) = Some e -> is_conversion_error e = true ->
  fst (ConvertStrToSID s) = None.
Proof.
  intros Herr Hconv.
  destruct (ConvertStrToSID_cases s)
    as [[_ Heq] | (p0 & p1 & p2 & p3 & ps & _ & [[_ Heq] | [_ (e' & _ & Heq)]])];
    rewrite Heq in Herr |- *; cbn [fst snd] in *.
  - injection Herr as <-. discriminate Hconv.
  - discriminate Herr.
  - reflexivity.
Qed.

(** * The claims *)

(** ** Rendering *)

(** C10. Rendering is total and blind to the count: for every SID value,
    whatever its [SubAuthorityCount], [String] returns a string (it does
    not panic); that string has one [-<decimal>] segment per element of
    the [SubAuthority] slice itself, and it is the same string for every
    value of the count field. *)
Theorem String_total_count_independent (s : RPCSID) :
  exists auth : string,
    RPCSID_String s =
      Some ("S-1-" ++ (auth ++ render_subs (SubAuthority s)))%string /\
    forall c : Z, RPCSID_String (with_count c s) = RPCSID_String s.
Proof.
  destruct (RPCSID_String_total s) as [auth Hs].
  exists auth. split; [exact Hs|]. intros c. reflexivity.
Qed.

(** C2 (as amended). For every SID value, the rendered string is the
    fixed literal [S-1-] followed by the authority segment and the
    sub-authorities.  The revision field is not rendered: the output is
    the same for every value of the revision, and it has the shape
    [S-<revision>-...], that is, it begins with [S-] and the decimal
    revision, exactly when the revision is 1. *)
Theorem String_literal_prefix (s : RPCSID) :
  wf_RPCSID s ->
  RPCSID_String s =
    Some ("S-1-" ++ (render_authority (IdentifierAuthority s)
                     ++ render_subs (SubAuthority s)))%string /\
  (forall r : Z, RPCSID_String (with_revision r s) = RPCSID_String s) /\
  (Revision s = 1 ->
   RPCSID_String s =
     Some ("S-" ++ (Fmt.Sprintf_d (Revision s)
                    ++ ("-" ++ (render_authority (IdentifierAuthority s)
                                ++ render_subs (SubAuthority s)))))%string) /\
  ((exists rest : string,
       RPCSID_String s =
       Some ("S-" ++ (Fmt.Sprintf_d (Revision s) ++ rest))%string) ->
   Revision s = 1).
Proof.
  intros (Hrev & _ & Hauth & _).
  pose proof (RPCSID_String_wf s Hauth) as Hs.
  split; [exact Hs|]. split; [intros r; reflexivity|]. split.
  - intros Hone. rewrite Hs, Hone. reflexivity.
  - intros [rest Hrest]. rewrite Hs in Hrest.
    assert (Hu : is_uint64 (Revision s)).
    { unfold is_uint8 in Hrev. split; [lia|].
      eapply Z.lt_trans with 256; [lia | reflexivity]. }
    destruct (Sprintf_d_digits (Revision s) Hu) as (Hne & Hdig & Hval).
    set (D := Fmt.Sprintf_d (Revision s)) in *. clearbody D.
    set (Y := (render_authority (IdentifierAuthority s)
               ++ render_subs (SubAuthority s))%string) in *. clearbody Y.
    destruct D as [|c D]; [congruence|].
    cbn [String.append] in Hrest. injection Hrest as Hc Htail. subst c.
    destruct D as [|c' D].
    + rewrite <- Hval. reflexivity.
    + cbn [String.append] in Htail. injection Htail as Hc' _. subst c'.
      cbn [all_digits] in Hdig.
      apply andb_true_iff in Hdig as [_ Hdig].
      apply andb_true_iff in Hdig as [Hdash _]. discriminate Hdash.
Qed.

Lemma String_literal_prefix_witness :
  RPCSID_String sid_known =
    Some "S-1-5-21-3623811015-3361044348-30300820-1013" /\
  RPCSID_String (with_revision 7 sid_known) = RPCSID_String sid_known.
Proof.
  assert (Hwf : wf_RPCSID sid_known) by wf_concrete.
  destruct (String_literal_prefix sid_known Hwf) as (Hs & Hrev & Hone & _).
  split; [|apply Hrev].
  rewrite (Hone eq_refl). reflexivity.
Defined.

(** C2, counterexample. A well-formed SID of revision 2 renders as
    [S-1-5-21]: no string that starts with [S-] and the decimal revision
    [2] is its rendering. *)
Lemma String_ignores_revision :
  wf_RPCSID sid_rev2 /\
  Fmt.Sprintf_d (Revision sid_rev2) = "2" /\
  RPCSID_String sid_rev2 = Some "S-1-5-21" /\
  ~ (exists rest : string,
       RPCSID_String sid_rev2 =
       Some ("S-" ++ (Fmt.Sprintf_d (Revision sid_rev2) ++ rest))%string).
Proof.
  split; [|split; [reflexivity | split; [reflexivity|]]].
  - wf_concrete.
  - intros [rest Hrest]. vm_compute in Hrest. discriminate Hrest.
Qed.

(** C6. Authority rendering threshold: for every SID whose six authority
    bytes are bytes, [String] reads [0, 0] followed by these bytes as a
    big-endian 64-bit integer, which is their 48-bit big-endian value; above
    [MaxUint32] the authority segment is [0x] and twelve lowercase
    hexadecimal characters denoting the six raw bytes, otherwise it is the
    decimal rendering of the value.  Authority [{0,0,0,0,0,5}] renders as
    [S-1-5] and [{1,0,0,0,0,0}] as [S-1-0x010000000000]. *)
Theorem String_authority_threshold (s : RPCSID) :
  wf_Array6 (IdentifierAuthority s) ->
  let a := IdentifierAuthority s in
  let i := authority_value a in
  Binary.BigEndian_Uint64 ([0; 0] ++ slice6 a) = Some i /\
  RPCSID_String s =
    Some ("S-1-" ++
          ((if i >? MaxUint32
            then ("0x" ++ Hex.EncodeToString (slice6 a))%string
            else Fmt.Sprintf_d i)
           ++ render_subs (SubAuthority s)))%string /\
  String.length (Hex.EncodeToString (slice6 a)) = 12%nat /\
  all_lower_hex (Hex.EncodeToString (slice6 a)) = true /\
  hex_decode (Hex.EncodeToString (slice6 a)) = slice6 a /\
  all_digits (Fmt.Sprintf_d i) = true /\
  dec_value (Fmt.Sprintf_d i) 0 = i /\
  RPCSID_String sid_nt = Some "S-1-5" /\
  RPCSID_String sid_big = Some "S-1-0x010000000000".
Proof.
  intros Ha a i.
  destruct (EncodeToString_spec (slice6 a) Ha) as [Hlen Hhex].
  assert (Hi : is_uint64 i).
  { pose proof (authority_value_range a Ha) as [Hlo Hhi]. split; [exact Hlo|].
    eapply Z.lt_trans; [exact Hhi | reflexivity]. }
  destruct (Sprintf_d_digits i Hi) as (_ & Hdig & Hval).
  split; [apply authority_Uint64, Ha|].
  split; [apply RPCSID_String_wf, Ha|].
  split; [exact Hlen|].
  split; [exact Hhex|].
  split; [apply hex_decode_EncodeToString, Ha|].
  split; [exact Hdig|].
  split; [exact Hval|].
  split; reflexivity.
Qed.

Lemma String_authority_threshold_witness :
  wf_Array6 (IdentifierAuthority sid_big_sub) /\
  RPCSID_String sid_big_sub = Some "S-1-0x010000000000-7".
Proof.
  assert (Ha : wf_Array6 (IdentifierAuthority sid_big_sub)) by wf_concrete.
  split; [exact Ha|].
  destruct (String_authority_threshold sid_big_sub Ha) as (_ & Hs & _).
  rewrite Hs. reflexivity.
Defined.

(** ** Binary form *)

(** C3. The count governs the write, not the length.  On every sink,
    [ToWriter] hands over the header and then the entries
    [SubAuthority[0]], [SubAuthority[1]], ... one write each, stopping at
    the first write the sink rejects; if none is rejected it returns after
    exactly [SubAuthorityCount] entries when the slice has that many (the
    entries beyond the count are never looked at), and it panics with an
    index out of range at the end of the slice when the count is larger.
    On a sink that accepts every write, with [SubAuthority = [10, 20, 30]]:
    a count of 2 writes 10 and 20 only, a count of 5 panics at index 3. *)
Theorem ToWriter_count_governs (s : RPCSID) :
  let count := Z.to_nat (SubAuthorityCount s) in
  let len := List.length (SubAuthority s) in
  (forall (W : Type) (Wr : IO.Writer W) (w : W),
      RPCSID_ToWriter s w =
      match write_chunks w (header_chunks s ++
                            sub_chunks (firstn count (SubAuthority s))) with
      | (w', Some e) => (w', Returns (Some e))
      | (w', None) =>
          (w', if (count <=? len)%nat then Returns None
               else Panics (IndexOutOfRange (Z.of_nat len) (Z.of_nat len)))
      end) /\
  (forall buf : IO.Buffer,
      RPCSID_ToWriter s buf =
      (buf ++ List.concat (header_chunks s) ++
              flat_map Binary.LittleEndian_Uint32 (firstn count (SubAuthority s)),
       if (count <=? len)%nat then Returns None
       else Panics (IndexOutOfRange (Z.of_nat len) (Z.of_nat len)))) /\
  List.length (firstn count (SubAuthority s)) = Nat.min count len /\
  RPCSID_ToWriter sid_count2 ([] : IO.Buffer) =
    ([1; 2; 0; 0; 0; 0; 0; 5; 10; 0; 0; 0; 20; 0; 0; 0], Returns None) /\
  RPCSID_ToWriter sid_count5 ([] : IO.Buffer) =
    ([1; 5; 0; 0; 0; 0; 0; 5; 10; 0; 0; 0; 20; 0; 0; 0; 30; 0; 0; 0],
     Panics (IndexOutOfRange 3 3)).
Proof.
  intros count len.
  split; [intros W Wr w; apply ToWriter_chunks|].
  split.
  - intros buf. rewrite ToWriter_Buffer.
    unfold wire_bytes, wire_chunks, loop_end. fold count len.
    rewrite concat_app. unfold sub_chunks at 1.
    rewrite <- flat_map_concat_map. reflexivity.
  - split; [apply length_firstn|]. split; reflexivity.
Qed.

(** C7. Binary layout: for every SID whose fields are in the range of
    their types and whose count is at most the number of sub-authorities,
    a write that succeeds has passed to the sink, in this order, the
    revision (1 byte), the count (1 byte), the six authority bytes as
    stored, and the first [SubAuthorityCount] sub-authorities, each as the
    four bytes of its little-endian encoding: [8 + 4 * SubAuthorityCount]
    bytes in all.  A sink that accepts every write ends up with exactly
    these bytes appended. *)
Theorem ToWriter_layout (s : RPCSID) :
  wf_RPCSID s ->
  SubAuthorityCount s <= Z.of_nat (List.length (SubAuthority s)) ->
  let written := firstn (Z.to_nat (SubAuthorityCount s)) (SubAuthority s) in
  let bytes := [Revision s; SubAuthorityCount s] ++
               slice6 (IdentifierAuthority s) ++
               flat_map Binary.LittleEndian_Uint32 written in
  (forall (W : Type) (Wr : IO.Writer W) (w w' : W),
      RPCSID_ToWriter s w = (w', Returns None) ->
      write_chunks w ([[Revision s]; [SubAuthorityCount s];
                       slice6 (IdentifierAuthority s)] ++
                      map Binary.LittleEndian_Uint32 written) = (w', None)) /\
  (forall buf : IO.Buffer,
      RPCSID_ToWriter s buf = (buf ++ bytes, Returns None)) /\
  Z.of_nat (List.length bytes) = 8 + 4 * SubAuthorityCount s /\
  Z.of_nat (List.length written) = SubAuthorityCount s /\
  Forall is_uint8 bytes /\
  Forall (fun x => List.length (Binary.LittleEndian_Uint32 x) = 4%nat /\
                   le_value (Binary.LittleEndian_Uint32 x) = x) written.
Proof.
  intros (Hrev & Hcount & Hauth & Hsubs) Hle written bytes.
  assert (Hend : loop_end s = Returns None).
  { unfold loop_end.
    destruct (Nat.leb_spec (Z.to_nat (SubAuthorityCount s))
                           (List.length (SubAuthority s))); [reflexivity | lia]. }
  assert (Hwritten : Forall is_uint32 written)
    by (apply Forall_firstn, Hsubs).
  assert (Hnum : Z.of_nat (List.length written) = SubAuthorityCount s).
  { unfold written. rewrite length_firstn. unfold is_uint8 in Hcount. lia. }
  split; [|split; [|split; [|split; [|split]]]].
  - intros W Wr w w' Hok. rewrite ToWriter_chunks in Hok.
    unfold ToWriter_by_chunks in Hok. fold (header_chunks s).
    change (header_chunks s ++ map Binary.LittleEndian_Uint32 written)
      with (wire_chunks s).
    destruct (write_chunks w (wire_chunks s)) as [w1 [e|]];
      [discriminate Hok | congruence].
  - intros buf. rewrite ToWriter_Buffer, Hend, wire_bytes_layout. reflexivity.
  - unfold bytes. rewrite !length_app, flat_map_concat_map.
    fold (sub_chunks written). rewrite length_concat_sub_chunks.
    cbn [List.length slice6]. lia.
  - exact Hnum.
  - unfold bytes. apply Forall_app.
    split; [apply Forall_cons; [|apply Forall_cons; [|apply Forall_nil]]; assumption|].
    apply Forall_app. split; [exact Hauth|].
    apply Forall_flat_map. eapply Forall_impl; [|exact Hwritten].
    intros x Hx. apply LittleEndian_Uint32_spec, Hx.
  - eapply Forall_impl; [|exact Hwritten].
    intros x Hx. destruct (LittleEndian_Uint32_spec x Hx) as (H4 & _ & Hv).
    split; assumption.
Qed.

Lemma ToWriter_layout_witness :
  RPCSID_ToWriter sid_known ([] : IO.Buffer) =
  ([1; 5; 0; 0; 0; 0; 0; 5;
    21; 0; 0; 0; 199; 247; 254; 215; 124; 119; 85; 200;
    148; 90; 206; 1; 245; 3; 0; 0], Returns None).
Proof.
  assert (Hwf : wf_RPCSID sid_known) by wf_concrete.
  assert (Hle : SubAuthorityCount sid_known
                <= Z.of_nat (List.length (SubAuthority sid_known)))
    by (vm_compute; discriminate).
  destruct (ToWriter_layout sid_known Hwf Hle) as (_ & Hbuf & _).
  rewrite Hbuf. reflexivity.
Defined.

(** On any sink, a count beyond the slice never lets [ToWriter] return
    without an error. *)
Lemma ToWriter_count_too_large {W : Type} `{IO.Writer W} (s : RPCSID) (w w' : W) :
  Z.of_nat (List.length (SubAuthority s)) < SubAuthorityCount s ->
  RPCSID_ToWriter s w <> (w', Returns None).
Proof.
  intros Hbig. rewrite ToWriter_chunks. unfold ToWriter_by_chunks, loop_end.
  destruct (write_chunks w (wire_chunks s)) as [w1 [e|]]; [discriminate|].
  destruct (Nat.leb_spec (Z.to_nat (SubAuthorityCount s))
                         (List.length (SubAuthority s))); [lia | discriminate].
Qed.

(** A sink with room for ten bytes rejects the second sub-authority: its
    error is returned at once, and the bytes it took stay written. *)
Example ToWriter_sink_rejects :
  RPCSID_ToWriter sid_count2 (IO.mkLimited 10 []) =
  (IO.mkLimited 0 [1; 2; 0; 0; 0; 0; 0; 5; 10; 0],
   Returns (Some IO.ErrShortWrite)).
Proof. reflexivity. Qed.

(** ** Parsing *)

(** The known vector parses to [sid_known], which renders to it again. *)
Example known_vector :
  ConvertStrToSID "S-1-5-21-3623811015-3361044348-30300820-1013"
    = (Some sid_known, None) /\
  RPCSID_String sid_known
    = Some "S-1-5-21-3623811015-3361044348-30300820-1013".
Proof. split; reflexivity. Qed.

(** A part that is not a number is reported as a sub-authority error. *)
Example non_numeric_subauthority :
  ConvertStrToSID "S-1-5-abc" =
  (None, Some (SubauthorityError (Strconv.mkNumError "abc" Strconv.ErrSyntax))).
Proof. reflexivity. Qed.

(** C8. The part count is the only structural check.  The parser reports
    the format error exactly when [Split] yields fewer than 4 parts; it
    succeeds exactly when there are at least 4 parts and each part after
    part 0 is a decimal unsigned integer that fits in 32 bits; the SID it
    then returns is built from the parts 1.. alone, whatever part 0 is.
    ["S-1-5"] is a format error; ["S-1-5-21"] parses to sub-authorities
    [[21]] with count 1, and so does ["?-1-5-21"]. *)
Theorem ConvertStrToSID_part_count (s : string) :
  let parts := Strings.Split s "-" in
  (snd (ConvertStrToSID s) = Some InvalidSIDRepresentation
   <-> (List.length parts < 4)%nat) /\
  (snd (ConvertStrToSID s) = None
   <-> (4 <= List.length parts)%nat /\
       forallb valid_uint32_decimal (tl parts) = true) /\
  (forall p0 p1 p2 p3 ps,
      parts = p0 :: p1 :: p2 :: p3 :: ps ->
      forallb valid_uint32_decimal (p1 :: p2 :: p3 :: ps) = true ->
      ConvertStrToSID s = (Some (parsed_sid p1 p2 (p3 :: ps)), None)) /\
  ConvertStrToSID "S-1-5" = (Some zero_RPCSID, Some InvalidSIDRepresentation) /\
  ConvertStrToSID "S-1-5-21" =
    (Some (mkRPCSID 1 1 (mkArray6 0 0 0 0 0 5) [21]), None) /\
  ConvertStrToSID "?-1-5-21" =
    (Some (mkRPCSID 1 1 (mkArray6 0 0 0 0 0 5) [21]), None).
Proof.
  intros parts. subst parts.
  pose proof (ConvertStrToSID_cases s) as Hcases.
  split; [|split; [|split; [|repeat split; reflexivity]]].
  - split.
    + intros Herr.
      destruct Hcases
        as [[Hlt _] | (p0 & p1 & p2 & p3 & ps & Hparts & [[_ Heq] | [_ (e & He & Heq)]])];
        [exact Hlt | rewrite Heq in Herr; discriminate Herr |].
      rewrite Heq in Herr. cbn [snd] in Herr. injection Herr as ->. discriminate He.
    + intros Hlt. now rewrite (ConvertStrToSID_short s Hlt).
  - split.
    + intros Hok.
      destruct Hcases
        as [[_ Heq] | (p0 & p1 & p2 & p3 & ps & Hparts & [[Hv _] | [_ (e & _ & Heq)]])];
        try (rewrite Heq in Hok; discriminate Hok).
      rewrite Hparts. split; [cbn [List.length]; lia | exact Hv].
    + intros [Hge Hv].
      destruct Hcases
        as [[Hlt _] | (p0 & p1 & p2 & p3 & ps & Hparts & [[_ Heq] | [Hbad _]])];
        [lia | now rewrite Heq |].
      rewrite Hparts in Hv. cbn [tl] in Hv. congruence.
  - intros p0 p1 p2 p3 ps Hparts Hv. cbn [forallb] in Hv.
    apply andb_true_iff in Hv as [H1 Hv]. apply andb_true_iff in Hv as [H2 H3].
    now apply (ConvertStrToSID_valid s p0 p1 p2 p3 ps).
Qed.

Lemma ConvertStrToSID_part_count_witness :
  ConvertStrToSID "anything-007-4294967295-0-1" =
  (Some (mkRPCSID 7 2 (mkArray6 0 0 255 255 255 255) [0; 1]), None).
Proof.
  destruct (ConvertStrToSID_part_count "anything-007-4294967295-0-1")
    as (_ & _ & Hparse & _).
  rewrite (Hparse "anything" "007" "4294967295" "0" ["1"]); reflexivity.
Defined.

(** C9 (as amended). The hexadecimal authority form is never parsed.  For
    every input whose part 2 begins with [0x]: with four parts or more the
    parser fails with a numeric conversion error and a nil result (the
    syntax error of the authority, unless part 1 is already rejected as a
    revision); with exactly three parts it fails with the format error.
    Hence for every SID whose authority exceeds [MaxUint32], parsing its
    rendering fails. *)
Theorem hex_authority_not_parsed :
  (forall (s p0 p1 h : string) (ps : list string),
      Strings.Split s "-" = p0 :: p1 :: ("0x" ++ h)%string :: ps ->
      match ps with
      | [] => ConvertStrToSID s = (Some zero_RPCSID, Some InvalidSIDRepresentation)
      | _ :: _ =>
          exists e, ConvertStrToSID s = (None, Some e) /\
                    is_conversion_error e = true /\
                    (valid_uint32_decimal p1 = true ->
                     e = AuthorityError
                           (Strconv.mkNumError ("0x" ++ h)%string Strconv.ErrSyntax))
      end) /\
  (forall V : RPCSID,
      wf_RPCSID V -> MaxUint32 < authority_value (IdentifierAuthority V) ->
      exists (str : string) (e : SIDError),
        RPCSID_String V = Some str /\
        snd (ConvertStrToSID str) = Some e /\
        (SubAuthority V <> [] ->
         ConvertStrToSID str =
         (None, Some (AuthorityError
                        (Strconv.mkNumError
                           (render_authority (IdentifierAuthority V))
                           Strconv.ErrSyntax))))).
Proof.
  assert (Hfirst : forall (s p0 p1 h : string) (ps : list string),
      Strings.Split s "-" = p0 :: p1 :: ("0x" ++ h)%string :: ps ->
      match ps with
      | [] => ConvertStrToSID s = (Some zero_RPCSID, Some InvalidSIDRepresentation)
      | _ :: _ =>
          exists e, ConvertStrToSID s = (None, Some e) /\
                    is_conversion_error e = true /\
                    (valid_uint32_decimal p1 = true ->
                     e = AuthorityError
                           (Strconv.mkNumError ("0x" ++ h)%string Strconv.ErrSyntax))
      end).
  { intros s p0 p1 h [|p3 ps] Hparts.
    - apply ConvertStrToSID_short. rewrite Hparts. cbn [List.length]. lia.
    - destruct (valid_uint32_decimal p1) eqn:H1.
      + destruct (ConvertStrToSID_bad_authority s p0 p1 _ p3 ps Hparts H1 eq_refl)
          as (v & k & Hp & Heq).
        rewrite ParseUint_hex_form in Hp. injection Hp as _ <-.
        eexists. split; [exact Heq|]. split; reflexivity.
      + destruct (ConvertStrToSID_bad_revision s p0 p1 _ p3 ps Hparts H1)
          as (v & k & _ & Heq).
        eexists. split; [exact Heq|]. split; [reflexivity | discriminate]. }
  split; [exact Hfirst|].
  intros V (Hrev & Hcount & Hauth & Hsubs) Hbig.
  exists ("S-1-" ++ (render_authority (IdentifierAuthority V)
                     ++ render_subs (SubAuthority V)))%string.
  pose proof (Split_rendered _ _ Hauth Hsubs) as Hsplit.
  assert (Hra : render_authority (IdentifierAuthority V) =
                ("0x" ++ Hex.EncodeToString (slice6 (IdentifierAuthority V)))%string).
  { unfold render_authority.
    destruct (Z.gtb_spec (authority_value (IdentifierAuthority V)) MaxUint32);
      [reflexivity | lia]. }
  rewrite Hra in Hsplit at 2.
  specialize (Hfirst _ _ _ _ _ Hsplit).
  destruct (map Fmt.Sprintf_d (SubAuthority V)) as [|d ds] eqn:Emap.
  - eexists. split; [apply RPCSID_String_wf, Hauth|].
    rewrite Hfirst. split; [reflexivity|].
    intros Hne. destruct (SubAuthority V); [congruence | discriminate Emap].
  - destruct Hfirst as (e & Heq & _ & He).
    exists e. split; [apply RPCSID_String_wf, Hauth|].
    rewrite Heq. split; [reflexivity|].
    intros _. rewrite (He eq_refl), Hra. reflexivity.
Qed.

Lemma hex_authority_not_parsed_witness :
  ConvertStrToSID "S-1-0x010000000000-7" =
  (None, Some (AuthorityError
                 (Strconv.mkNumError "0x010000000000" Strconv.ErrSyntax))).
Proof.
  destruct hex_authority_not_parsed as [_ Hrender].
  assert (Hwf : wf_RPCSID sid_big_sub) by wf_concrete.
  assert (Hbig : MaxUint32 < authority_value (IdentifierAuthority sid_big_sub))
    by reflexivity.
  destruct (Hrender sid_big_sub Hwf Hbig) as (str & e & Hstr & _ & Hparse).
  vm_compute in Hstr. injection Hstr as <-.
  apply Hparse. discriminate.
Defined.

(** C9, counterexample. ["S-1-0x010000000000"] is what [String] returns
    for the authority [{1,0,0,0,0,0}] without sub-authorities; its part 2
    is the hexadecimal form, and the parser fails on it with the format
    error, which is not a numeric conversion error. *)
Lemma hex_authority_format_error :
  RPCSID_String sid_big = Some "S-1-0x010000000000" /\
  nth_error (Strings.Split "S-1-0x010000000000" "-") 2 =
    Some ("0x" ++ Hex.EncodeToString (slice6 (IdentifierAuthority sid_big)))%string /\
  ConvertStrToSID "S-1-0x010000000000" =
    (Some zero_RPCSID, Some InvalidSIDRepresentation) /\
  ~ (exists e, snd (ConvertStrToSID "S-1-0x010000000000") = Some e /\
               is_conversion_error e = true).
Proof.
  split; [reflexivity|]. split; [reflexivity|]. split; [reflexivity|].
  intros (e & He & Hconv). vm_compute in He. injection He as <-.
  discriminate Hconv.
Qed.

(** C4, evaluated at the failing input. ["S-1-5"] followed by 256 segments
    ["-0"] parses successfully; the result has 256 sub-authorities and a
    count field of 0. *)
Theorem ConvertStrToSID_count_wraps :
  exists sid : RPCSID,
    ConvertStrToSID (many_segments 256) = (Some sid, None) /\
    List.length (SubAuthority sid) = 256%nat /\
    SubAuthorityCount sid = 0 /\
    SubAuthorityCount sid <> Z.of_nat (List.length (SubAuthority sid)).
Proof.
  destruct (ConvertStrToSID (many_segments 256)) as [[sid|] [err|]] eqn:E;
    vm_compute in E; try discriminate E.
  exists sid. injection E as <-. vm_compute. repeat split. discriminate.
Qed.

(** C5, evaluated at the failing input. On ["S-1-5"] the parser returns
    the format error together with a non-nil SID, the zero value. *)
Theorem ConvertStrToSID_format_error_returns_sid :
  ConvertStrToSID "S-1-5" = (Some zero_RPCSID, Some InvalidSIDRepresentation) /\
  fst (ConvertStrToSID "S-1-5") <> None.
Proof. split; [reflexivity | discriminate]. Qed.

(** ** Round trip *)

(** Rendering and parsing restores every field but the revision, which
    comes back as the 1 of the literal [S-1-]. *)
Lemma roundtrip_up_to_revision (V : RPCSID) :
  wf_RPCSID V ->
  SubAuthorityCount V = Z.of_nat (List.length (SubAuthority V)) ->
  SubAuthority V <> [] ->
  authority_value (IdentifierAuthority V) <= MaxUint32 ->
  renders_and_parses_to V (with_revision 1 V).
Proof.
  intros (Hrev & Hcount & Hauth & Hsubs) Hlen Hne Hsmall.
  exists ("S-1-" ++ (render_authority (IdentifierAuthority V)
                     ++ render_subs (SubAuthority V)))%string.
  split; [apply RPCSID_String_wf, Hauth|].
  pose proof (Split_rendered _ _ Hauth Hsubs) as Hsplit.
  destruct (SubAuthority V) as [|sub subs] eqn:Esubs; [congruence|].
  cbn [map] in Hsplit.
  assert (Hra : render_authority (IdentifierAuthority V) =
                Fmt.Sprintf_d (authority_value (IdentifierAuthority V))).
  { unfold render_authority.
    destruct (Z.gtb_spec (authority_value (IdentifierAuthority V)) MaxUint32);
      [lia | reflexivity]. }
  assert (Hau : is_uint32 (authority_value (IdentifierAuthority V))).
  { pose proof (authority_value_range _ Hauth). unfold is_uint32, MaxUint32 in *.
    pow2_consts. lia. }
  destruct (Sprintf_d_valid _ Hau) as [Hav Haval].
  destruct (map_part_value_Sprintf_d (sub :: subs) Hsubs) as [Hsv Hsm].
  rewrite (ConvertStrToSID_valid _ _ _ _ _ _ Hsplit);
    [| reflexivity | now rewrite Hra | exact Hsv ].
  f_equal. f_equal. unfold parsed_sid, with_revision.
  change (Fmt.Sprintf_d sub :: map Fmt.Sprintf_d subs)
    with (map Fmt.Sprintf_d (sub :: subs)).
  rewrite Hsm, length_map, <- Hlen, Esubs.
  rewrite Hra. unfold part_value at 2. rewrite Haval.
  rewrite <- (to_uint32_small _ Hau), authority_bytes_restored by assumption.
  f_equal. unfold to_uint8. pow2_consts. apply Z.mod_small, Hcount.
Qed.

(** C1 (as amended). String round trip: for every SID value [V] whose
    fields are in the range of their types, whose revision is 1, whose
    count equals the number of its sub-authorities, which has at least one
    sub-authority and whose authority, read as a 48-bit big-endian
    integer, is at most [MaxUint32], parsing the rendering of [V] succeeds
    and yields [V] field for field. *)
Theorem String_ConvertStrToSID_roundtrip (V : RPCSID) :
  wf_RPCSID V ->
  Revision V = 1 ->
  SubAuthorityCount V = Z.of_nat (List.length (SubAuthority V)) ->
  SubAuthority V <> [] ->
  authority_value (IdentifierAuthority V) <= MaxUint32 ->
  renders_and_parses_to V V.
Proof.
  intros Hwf Hone Hlen Hne Hsmall.
  replace V with (with_revision 1 V) at 2.
  - now apply roundtrip_up_to_revision.
  - destruct V; unfold with_revision; cbn in *. now subst.
Qed.

Lemma String_ConvertStrToSID_roundtrip_witness :
  renders_and_parses_to sid_known sid_known.
Proof.
  apply (String_ConvertStrToSID_roundtrip sid_known).
  - wf_concrete.
  - reflexivity.
  - reflexivity.
  - discriminate.
  - vm_compute. discriminate.
Defined.

(** C1, counterexamples.  Both values satisfy the hypotheses of the claim
    as stated (count equal to the length, authority 5).  The first has no
    sub-authority: it renders as [S-1-5], three parts, which the parser
    rejects.  The second has revision 2: it renders with the literal 1 and
    parses back with revision 1. *)
Lemma roundtrip_fails :
  (wf_RPCSID sid_nt /\
   SubAuthorityCount sid_nt = Z.of_nat (List.length (SubAuthority sid_nt)) /\
   authority_value (IdentifierAuthority sid_nt) <= MaxUint32 /\
   ~ renders_and_parses_to sid_nt sid_nt) /\
  (wf_RPCSID sid_rev2 /\
   SubAuthorityCount sid_rev2 = Z.of_nat (List.length (SubAuthority sid_rev2)) /\
   authority_value (IdentifierAuthority sid_rev2) <= MaxUint32 /\
   ~ renders_and_parses_to sid_rev2 sid_rev2).
Proof.
  split; (split; [wf_concrete|]); (split; [reflexivity|]);
    (split; [vm_compute; discriminate|]);
    intros (str & Hstr & Hparse);
    vm_compute in Hstr; injection Hstr as <-;
    vm_compute in Hparse; discriminate Hparse.
Qed.

(** * Further properties of the code *)

(** ** Auxiliary facts *)

(** What [String] reads back from the authority the parser stored is the
    number it parsed. *)
Lemma authority_value_stored (d : Array6) (v : Z) :
  is_uint32 v ->
  wf_Array6 (copy6 d (Binary.BigEndian_AppendUint32 [0; 0] v)) /\
  authority_value (copy6 d (Binary.BigEndian_AppendUint32 [0; 0] v)) = v /\
  el0 (copy6 d (Binary.BigEndian_AppendUint32 [0; 0] v)) = 0 /\
  el1 (copy6 d (Binary.BigEndian_AppendUint32 [0; 0] v)) = 0.
Proof.
  intros Hv. unfold is_uint32 in Hv. pow2_consts.
  unfold wf_Array6, slice6, authority_value, copy6, Binary.BigEndian_AppendUint32,
    to_uint8, is_uint8.
  cbn [app nth el0 el1 el2 el3 el4 el5].
  rewrite !Z.shiftr_div_pow2 by lia. pow2_consts.
  split; [|split; [|split; reflexivity]].
  - repeat (apply Forall_cons; [Z.div_mod_to_equations; lia|]). apply Forall_nil.
  - Z.div_mod_to_equations. lia.
Qed.

Lemma valid_parts_values (ps : list string) :
  forallb valid_uint32_decimal ps = true -> Forall is_uint32 (map part_value ps).
Proof.
  induction ps as [|p ps IH]; cbn [forallb map]; intros Hv; [apply Forall_nil|].
  apply andb_true_iff in Hv as [Hp Hps].
  apply Forall_cons; [apply valid_part_value, Hp | apply IH, Hps].
Qed.

Lemma to_uint8_is_uint8 (x : Z) : is_uint8 (to_uint8 x).
Proof. unfold is_uint8, to_uint8. pow2_consts. apply Z.mod_pos_bound. lia. Qed.

(** The SID built from valid parts is within the range of its types. *)
Lemma parsed_sid_wf (p1 p2 : string) (ps : list string) :
  valid_uint32_decimal p2 = true ->
  forallb valid_uint32_decimal ps = true ->
  wf_RPCSID (parsed_sid p1 p2 ps).
Proof.
  intros H2 Hps. unfold wf_RPCSID, parsed_sid.
  cbn [Revision SubAuthorityCount IdentifierAuthority SubAuthority].
  split; [apply to_uint8_is_uint8|]. split; [apply to_uint8_is_uint8|].
  split; [|apply valid_parts_values, Hps].
  apply authority_value_stored, valid_part_value, H2.
Qed.

(** A successful parse, taken apart. *)
Lemma ConvertStrToSID_success (s : string) (sid : RPCSID) :
  ConvertStrToSID s = (Some sid, None) ->
  exists p0 p1 p2 p3 ps,
    Strings.Split s "-" = p0 :: p1 :: p2 :: p3 :: ps /\
    forallb valid_uint32_decimal (p1 :: p2 :: p3 :: ps) = true /\
    sid = parsed_sid p1 p2 (p3 :: ps).
Proof.
  intros Hok.
  destruct (ConvertStrToSID_cases s)
    as [[_ Heq] | (p0 & p1 & p2 & p3 & ps & Hparts & [[Hv Heq] | [_ (e & _ & Heq)]])];
    rewrite Heq in Hok; try discriminate Hok.
  injection Hok as <-. now exists p0, p1, p2, p3, ps.
Qed.

(** Parsing a rendered SID with a small authority and a sub-authority. *)
Lemma parse_rendered (V : RPCSID) :
  wf_Array6 (IdentifierAuthority V) -> Forall is_uint32 (SubAuthority V) ->
  SubAuthority V <> [] ->
  authority_value (IdentifierAuthority V) <= MaxUint32 ->
  ConvertStrToSID ("S-1-" ++ (render_authority (IdentifierAuthority V)
                              ++ render_subs (SubAuthority V)))%string =
  (Some (mkRPCSID 1 (to_uint8 (Z.of_nat (List.length (SubAuthority V))))
                  (IdentifierAuthority V) (SubAuthority V)), None).
Proof.
  intros Hauth Hsubs Hne Hsmall.
  pose proof (Split_rendered _ _ Hauth Hsubs) as Hsplit.
  destruct (SubAuthority V) as [|sub subs] eqn:Esubs; [congruence|].
  cbn [map] in Hsplit.
  assert (Hra : render_authority (IdentifierAuthority V) =
                Fmt.Sprintf_d (authority_value (IdentifierAuthority V))).
  { unfold render_authority.
    destruct (Z.gtb_spec (authority_value (IdentifierAuthority V)) MaxUint32);
      [lia | reflexivity]. }
  assert (Hau : is_uint32 (authority_value (IdentifierAuthority V))).
  { pose proof (authority_value_range _ Hauth). unfold is_uint32, MaxUint32 in *.
    pow2_consts. lia. }
  destruct (Sprintf_d_valid _ Hau) as [Hav Haval].
  destruct (map_part_value_Sprintf_d (sub :: subs) Hsubs) as [Hsv Hsm].
  rewrite (ConvertStrToSID_valid _ _ _ _ _ _ Hsplit);
    [| reflexivity | now rewrite Hra | exact Hsv ].
  f_equal. f_equal. unfold parsed_sid.
  change (Fmt.Sprintf_d sub :: map Fmt.Sprintf_d subs)
    with (map Fmt.Sprintf_d (sub :: subs)).
  rewrite Hsm, length_map.
  rewrite Hra. unfold part_value at 2. rewrite Haval.
  rewrite <- (to_uint32_small _ Hau), authority_bytes_restored by assumption.
  reflexivity.
Qed.

(** ** What a successful parse returns *)

(** X1. Every SID that [ConvertStrToSID] returns without an error has its
    fields within the range of their types, at least one sub-authority,
    and an authority whose two leading bytes are zero, so that its 48-bit
    value is at most [MaxUint32]. *)
Theorem ConvertStrToSID_result_wf (s : string) (sid : RPCSID) :
  ConvertStrToSID s = (Some sid, None) ->
  wf_RPCSID sid /\
  SubAuthority sid <> [] /\
  el0 (IdentifierAuthority sid) = 0 /\
  el1 (IdentifierAuthority sid) = 0 /\
  authority_value (IdentifierAuthority sid) <= MaxUint32.
Proof.
  intros Hok.
  destruct (ConvertStrToSID_success s sid Hok)
    as (p0 & p1 & p2 & p3 & ps & _ & Hv & ->).
  cbn [forallb] in Hv. apply andb_true_iff in Hv as [H1 Hv].
  apply andb_true_iff in Hv as [H2 H3].
  split; [apply parsed_sid_wf; assumption|].
  split; [discriminate|].
  pose proof (valid_part_value p2 H2) as Hp2.
  destruct (authority_value_stored (IdentifierAuthority zero_RPCSID)
              (part_value p2) Hp2) as (_ & Hval & H0 & H1').
  unfold parsed_sid. cbn [IdentifierAuthority].
  split; [exact H0|]. split; [exact H1'|].
  rewrite Hval. unfold is_uint32, MaxUint32 in *. pow2_consts. lia.
Qed.

Lemma ConvertStrToSID_result_wf_witness :
  wf_RPCSID (mkRPCSID 44 1 (mkArray6 0 0 0 0 1 0) [7]).
Proof.
  apply (ConvertStrToSID_result_wf "x-300-256-7"). reflexivity.
Defined.

(** X2. The fields of a successful parse, read off the parts of the
    input: the revision is the number in part 1 reduced modulo 256, the
    48-bit big-endian value of the authority is the number in part 2, the
    sub-authorities are the numbers in the parts from 3 on, in order, and
    the count is their number modulo 256. *)
Theorem ConvertStrToSID_fields (s p0 p1 p2 : string) (ps : list string)
        (sid : RPCSID) :
  ConvertStrToSID s = (Some sid, None) ->
  Strings.Split s "-" = p0 :: p1 :: p2 :: ps ->
  Revision sid = part_value p1 mod 256 /\
  authority_value (IdentifierAuthority sid) = part_value p2 /\
  SubAuthority sid = map part_value ps /\
  SubAuthorityCount sid = Z.of_nat (List.length ps) mod 256.
Proof.
  intros Hok Hparts.
  destruct (ConvertStrToSID_success s sid Hok)
    as (q0 & q1 & q2 & q3 & qs & Hsplit & Hv & ->).
  rewrite Hsplit in Hparts. injection Hparts as <- <- <- <-.
  cbn [forallb] in Hv. apply andb_true_iff in Hv as [H1 Hv].
  apply andb_true_iff in Hv as [H2 H3].
  destruct (authority_value_stored (IdentifierAuthority zero_RPCSID)
              (part_value q2) (valid_part_value q2 H2)) as (_ & Hval & _).
  unfold parsed_sid.
  cbn [Revision SubAuthorityCount IdentifierAuthority SubAuthority].
  repeat split; try reflexivity. exact Hval.
Qed.

Lemma ConvertStrToSID_fields_witness :
  Revision (mkRPCSID 44 1 (mkArray6 0 0 0 0 1 0) [7]) = 300 mod 256 /\
  authority_value (mkArray6 0 0 0 0 1 0) = 256.
Proof.
  destruct (ConvertStrToSID_fields "x-300-256-7" "x" "300" "256" ["7"]
              (mkRPCSID 44 1 (mkArray6 0 0 0 0 1 0) [7]) eq_refl eq_refl)
    as (Hrev & Hauth & _).
  split; [exact Hrev | exact Hauth].
Defined.

(** X3. Rendering normalises: if an input parses to [sid], then rendering
    [sid] gives a string that parses again, to the same SID with the
    revision 1.  This holds for every successful parse, also when the
    count has wrapped. *)
Theorem parse_render_parse (s : string) (sid : RPCSID) :
  ConvertStrToSID s = (Some sid, None) ->
  renders_and_parses_to sid (with_revision 1 sid).
Proof.
  intros Hok.
  destruct (ConvertStrToSID_count s sid Hok) as [Hcount _].
  destruct (ConvertStrToSID_success s sid Hok)
    as (p0 & p1 & p2 & p3 & ps & _ & Hv & Hsid).
  cbn [forallb] in Hv. apply andb_true_iff in Hv as [H1 Hv].
  apply andb_true_iff in Hv as [H2 H3].
  assert (Hwf : wf_RPCSID sid) by (subst sid; apply parsed_sid_wf; assumption).
  destruct Hwf as (_ & _ & Hauth & Hsubs).
  assert (Hne : SubAuthority sid <> []) by (subst sid; discriminate).
  assert (Hsmall : authority_value (IdentifierAuthority sid) <= MaxUint32).
  { subst sid. unfold parsed_sid. cbn [IdentifierAuthority].
    pose proof (valid_part_value p2 H2) as Hp2.
    destruct (authority_value_stored (IdentifierAuthority zero_RPCSID)
                (part_value p2) Hp2) as (_ & -> & _).
    unfold is_uint32, MaxUint32 in *. pow2_consts. lia. }
  exists ("S-1-" ++ (render_authority (IdentifierAuthority sid)
                     ++ render_subs (SubAuthority sid)))%string.
  split; [apply RPCSID_String_wf, Hauth|].
  rewrite (parse_rendered sid Hauth Hsubs Hne Hsmall).
  unfold with_revision, to_uint8. pow2_consts. rewrite <- Hcount. reflexivity.
Qed.

Lemma parse_render_parse_witness :
  renders_and_parses_to (mkRPCSID 44 1 (mkArray6 0 0 0 0 1 0) [7])
                        (mkRPCSID 1 1 (mkArray6 0 0 0 0 1 0) [7]).
Proof.
  apply (parse_render_parse "x-300-0256-007"). reflexivity.
Defined.

(** X4. A SID returned by the parser can always be written: on no sink
    does [ToWriter] panic on it, since its count never exceeds the number
    of its sub-authorities; a sink that accepts every write receives
    [8 + 4 * SubAuthorityCount] bytes and [ToWriter] returns nil. *)
Theorem ToWriter_of_parsed (s : string) (sid : RPCSID) :
  ConvertStrToSID s = (Some sid, None) ->
  (forall (W : Type) (Wr : IO.Writer W) (w : W),
      exists err, snd (RPCSID_ToWriter sid w) = Returns err) /\
  (forall buf : IO.Buffer,
      RPCSID_ToWriter sid buf = (buf ++ wire_bytes sid, Returns None)) /\
  Z.of_nat (List.length (wire_bytes sid)) = 8 + 4 * SubAuthorityCount sid.
Proof.
  intros Hok.
  destruct (ConvertStrToSID_count s sid Hok) as [Hcount _].
  assert (Hle : (Z.to_nat (SubAuthorityCount sid)
                 <= List.length (SubAuthority sid))%nat).
  { rewrite Hcount.
    pose proof (Z.mod_le (Z.of_nat (List.length (SubAuthority sid))) 256
                  ltac:(lia) ltac:(lia)).
    pose proof (Z.mod_pos_bound (Z.of_nat (List.length (SubAuthority sid))) 256
                  ltac:(lia)). lia. }
  assert (Hend : loop_end sid = Returns None).
  { unfold loop_end. apply Nat.leb_le in Hle. now rewrite Hle. }
  split; [|split].
  - intros W Wr w. rewrite ToWriter_chunks. unfold ToWriter_by_chunks.
    destruct (write_chunks w (wire_chunks sid)) as [w' [e|]]; cbn [snd].
    + now exists (Some e).
    + exists None. exact Hend.
  - intros buf. now rewrite ToWriter_Buffer, Hend.
  - rewrite wire_bytes_layout, !length_app, flat_map_concat_map.
    fold (sub_chunks (firstn (Z.to_nat (SubAuthorityCount sid)) (SubAuthority sid))).
    rewrite length_concat_sub_chunks, length_firstn.
    cbn [List.length slice6].
    pose proof (Z.mod_pos_bound (Z.of_nat (List.length (SubAuthority sid))) 256
                  ltac:(lia)). lia.
Qed.

Lemma ToWriter_of_parsed_witness :
  RPCSID_ToWriter (mkRPCSID 1 1 (mkArray6 0 0 0 0 0 5) [21]) ([] : IO.Buffer) =
  ([1; 1; 0; 0; 0; 0; 0; 5; 21; 0; 0; 0], Returns None).
Proof.
  destruct (ToWriter_of_parsed "S-1-5-21" (mkRPCSID 1 1 (mkArray6 0 0 0 0 0 5) [21])
              eq_refl) as (_ & Hbuf & _).
  rewrite Hbuf. reflexivity.
Defined.

(** ** The rendering is unambiguous *)

Lemma Sprintf_d_inj (u v : Z) :
  is_uint64 u -> is_uint64 v -> Fmt.Sprintf_d u = Fmt.Sprintf_d v -> u = v.
Proof.
  intros Hu Hv Heq.
  destruct (Sprintf_d_digits u Hu) as (_ & _ & <-).
  destruct (Sprintf_d_digits v Hv) as (_ & _ & <-).
  now rewrite Heq.
Qed.

Lemma map_Sprintf_d_inj (l1 l2 : list Z) :
  Forall is_uint32 l1 -> Forall is_uint32 l2 ->
  map Fmt.Sprintf_d l1 = map Fmt.Sprintf_d l2 -> l1 = l2.
Proof.
  intros H1 H2 Heq.
  destruct (map_part_value_Sprintf_d l1 H1) as [_ <-].
  destruct (map_part_value_Sprintf_d l2 H2) as [_ <-].
  now rewrite Heq.
Qed.

Lemma slice6_inj (a b : Array6) : slice6 a = slice6 b -> a = b.
Proof.
  destruct a, b. unfold slice6. cbn [el0 el1 el2 el3 el4 el5].
  intros Heq. injection Heq as -> -> -> -> -> ->. reflexivity.
Qed.

Lemma authority_value_inj (a b : Array6) :
  wf_Array6 a -> wf_Array6 b -> authority_value a = authority_value b -> a = b.
Proof.
  intros Ha Hb Heq.
  destruct a as [a0 a1 a2 a3 a4 a5], b as [b0 b1 b2 b3 b4 b5].
  unfold wf_Array6, slice6, authority_value in *.
  cbn [el0 el1 el2 el3 el4 el5] in *. inv_Forall. unfold is_uint8 in *.
  pow2_consts.
  assert (a5 = b5) by lia. assert (a4 = b4) by lia. assert (a3 = b3) by lia.
  assert (a2 = b2) by lia. assert (a1 = b1) by lia. assert (a0 = b0) by lia.
  now subst.
Qed.

Lemma append_inv_head (p x y : string) :
  (p ++ x)%string = (p ++ y)%string -> x = y.
Proof.
  induction p as [|c p IH]; cbn [String.append]; intros Heq; [exact Heq|].
  injection Heq as Heq. now apply IH.
Qed.

Lemma render_authority_inj (a b : Array6) :
  wf_Array6 a -> wf_Array6 b -> render_authority a = render_authority b -> a = b.
Proof.
  intros Ha Hb. unfold render_authority.
  assert (Hda : all_digits (Fmt.Sprintf_d (authority_value a)) = true).
  { apply Sprintf_d_digits. pose proof (authority_value_range a Ha) as [? Hhi].
    split; [assumption | eapply Z.lt_trans; [exact Hhi | reflexivity]]. }
  assert (Hdb : all_digits (Fmt.Sprintf_d (authority_value b)) = true).
  { apply Sprintf_d_digits. pose proof (authority_value_range b Hb) as [? Hhi].
    split; [assumption | eapply Z.lt_trans; [exact Hhi | reflexivity]]. }
  destruct (authority_value a >? MaxUint32), (authority_value b >? MaxUint32);
    intros Heq.
  - apply slice6_inj.
    rewrite <- (hex_decode_EncodeToString (slice6 a) Ha).
    rewrite <- (hex_decode_EncodeToString (slice6 b) Hb).
    apply append_inv_head in Heq. now rewrite Heq.
  - rewrite <- Heq in Hdb. discriminate Hdb.
  - rewrite Heq in Hda. discriminate Hda.
  - apply authority_value_inj; [assumption | assumption |].
    pose proof (authority_value_range a Ha) as [? Hha].
    pose proof (authority_value_range b Hb) as [? Hhb].
    apply Sprintf_d_inj; [| | exact Heq]; (split; [assumption|]);
      (eapply Z.lt_trans; [eassumption | reflexivity]).
Qed.

(** X5. The rendering is unambiguous: two values of type [RPCSID] with
    the same [String] have the same authority bytes and the same
    sub-authorities (their revision and count may differ: [String] shows
    neither). *)
Theorem String_injective (a b : RPCSID) :
  wf_RPCSID a -> wf_RPCSID b ->
  RPCSID_String a = RPCSID_String b ->
  IdentifierAuthority a = IdentifierAuthority b /\
  SubAuthority a = SubAuthority b.
Proof.
  intros (_ & _ & Haa & Hsa) (_ & _ & Hab & Hsb) Heq.
  rewrite (RPCSID_String_wf a Haa), (RPCSID_String_wf b Hab) in Heq.
  injection Heq as Heq.
  pose proof (Split_rendered _ _ Haa Hsa) as Hpa.
  pose proof (Split_rendered _ _ Hab Hsb) as Hpb.
  assert (Hparts : "S" :: "1" :: render_authority (IdentifierAuthority a)
                     :: map Fmt.Sprintf_d (SubAuthority a) =
                   "S" :: "1" :: render_authority (IdentifierAuthority b)
                     :: map Fmt.Sprintf_d (SubAuthority b)).
  { rewrite <- Hpa, <- Hpb. cbn [String.append]. now rewrite Heq. }
  injection Hparts as Hauth Hsubs.
  split; [now apply render_authority_inj | now apply map_Sprintf_d_inj].
Qed.

Lemma String_injective_witness :
  SubAuthority (with_count 9 (with_revision 3 sid_known)) = SubAuthority sid_known.
Proof.
  apply (String_injective (with_count 9 (with_revision 3 sid_known)) sid_known).
  - wf_concrete.
  - wf_concrete.
  - reflexivity.
Defined.

(** X6. The parts of a rendered SID: for every value of type [RPCSID],
    splitting its [String] on [-] gives [S], [1], the authority segment and
    one decimal per sub-authority, [3 + len(SubAuthority)] parts, none of
    them empty. *)
Theorem String_parts (V : RPCSID) :
  wf_RPCSID V ->
  exists str : string,
    RPCSID_String V = Some str /\
    Strings.Split str "-" =
      "S" :: "1" :: render_authority (IdentifierAuthority V)
          :: map Fmt.Sprintf_d (SubAuthority V) /\
    List.length (Strings.Split str "-") = (3 + List.length (SubAuthority V))%nat /\
    ~ In EmptyString (Strings.Split str "-").
Proof.
  intros (_ & _ & Hauth & Hsubs).
  eexists. split; [apply RPCSID_String_wf, Hauth|].
  rewrite (Split_rendered _ _ Hauth Hsubs).
  split; [reflexivity|]. split; [cbn [List.length]; now rewrite length_map|].
  intros [H|[H|[H|H]]]; try discriminate H.
  - unfold render_authority in H.
    destruct (authority_value (IdentifierAuthority V) >? MaxUint32);
      [discriminate H|].
    pose proof (authority_value_range _ Hauth) as [? Hhi].
    destruct (Sprintf_d_digits (authority_value (IdentifierAuthority V)))
      as (Hne & _); [|congruence].
    split; [assumption | eapply Z.lt_trans; [exact Hhi | reflexivity]].
  - apply in_map_iff in H as (x & Hx & Hin).
    assert (Hu : is_uint32 x) by (eapply Forall_forall; eassumption).
    destruct (Sprintf_d_digits x (is_uint32_uint64 x Hu)) as (Hne & _).
    congruence.
Qed.

Lemma String_parts_witness :
  exists str : string,
    RPCSID_String sid_big_sub = Some str /\
    Strings.Split str "-" = ["S"; "1"; "0x010000000000"; "7"].
Proof.
  destruct (String_parts sid_big_sub) as (str & Hstr & Hsplit & _);
    [wf_concrete|].
  exists str. split; [exact Hstr | exact Hsplit].
Defined.

(** X7. Which rendered SIDs parse: for every value [V] of type [RPCSID],
    the parser accepts [String(V)] exactly when [V] has at least one
    sub-authority and an authority of at most [MaxUint32]; the SID it
    then returns has the authority and the sub-authorities of [V], the
    revision 1 and the number of sub-authorities modulo 256 as its
    count. *)
Theorem String_parses_iff (V : RPCSID) :
  wf_RPCSID V ->
  exists str : string,
    RPCSID_String V = Some str /\
    (snd (ConvertStrToSID str) = None <->
     SubAuthority V <> [] /\
     authority_value (IdentifierAuthority V) <= MaxUint32) /\
    (snd (ConvertStrToSID str) = None ->
     ConvertStrToSID str =
     (Some (mkRPCSID 1 (Z.of_nat (List.length (SubAuthority V)) mod 256)
                     (IdentifierAuthority V) (SubAuthority V)), None)).
Proof.
  intros (_ & _ & Hauth & Hsubs).
  eexists. split; [apply RPCSID_String_wf, Hauth|].
  assert (Hfwd : snd (ConvertStrToSID
                        ("S-1-" ++ (render_authority (IdentifierAuthority V)
                                    ++ render_subs (SubAuthority V)))%string) = None ->
                 SubAuthority V <> [] /\
                 authority_value (IdentifierAuthority V) <= MaxUint32).
  { intros Hok.
    pose proof (Split_rendered _ _ Hauth Hsubs) as Hsplit.
    destruct (SubAuthority V) as [|sub subs] eqn:Esubs.
    - rewrite ConvertStrToSID_short in Hok; [discriminate Hok|].
      rewrite Hsplit. cbn [map List.length]. lia.
    - split; [discriminate|].
      destruct (Z.gtb_spec (authority_value (IdentifierAuthority V)) MaxUint32)
        as [Hbig|Hsmall]; [|exact Hsmall].
      cbn [map] in Hsplit.
      assert (Hbad : valid_uint32_decimal
                       (render_authority (IdentifierAuthority V)) = false).
      { unfold render_authority.
        destruct (Z.gtb_spec (authority_value (IdentifierAuthority V)) MaxUint32);
          [reflexivity | lia]. }
      destruct (ConvertStrToSID_bad_authority _ _ _ _ _ _ Hsplit eq_refl Hbad)
        as (v & k & _ & Heq).
      rewrite Heq in Hok. discriminate Hok. }
  split; [split; [exact Hfwd|] |].
  - intros [Hne Hsmall]. now rewrite (parse_rendered V Hauth Hsubs Hne Hsmall).
  - intros Hok. destruct (Hfwd Hok) as [Hne Hsmall].
    rewrite (parse_rendered V Hauth Hsubs Hne Hsmall).
    unfold to_uint8. pow2_consts. reflexivity.
Qed.

Lemma String_parses_iff_witness :
  exists str : string,
    RPCSID_String sid_count5 = Some str /\
    ConvertStrToSID str =
    (Some (mkRPCSID 1 3 (mkArray6 0 0 0 0 0 5) [10; 20; 30]), None).
Proof.
  destruct (String_parses_iff sid_count5) as (str & Hstr & [_ Hiff] & Hres);
    [wf_concrete|].
  exists str. split; [exact Hstr|].
  apply Hres, Hiff. split; [discriminate | vm_compute; discriminate].
Defined.

(** ** The binary form is unambiguous *)

Lemma decode_u32s_flat_map (subs : list Z) :
  Forall is_uint32 subs ->
  decode_u32s (flat_map Binary.LittleEndian_Uint32 subs) = subs.
Proof.
  induction 1 as [|x subs Hx _ IH]; [reflexivity|].
  destruct (LittleEndian_Uint32_spec x Hx) as (_ & _ & Hval).
  cbn [flat_map]. unfold Binary.LittleEndian_Uint32 in *.
  cbn [app decode_u32s]. f_equal; [exact Hval | exact IH].
Qed.

(** X8. The binary form is unambiguous: two values of type [RPCSID]
    whose count equals the number of their sub-authorities, and for which
    [ToWriter] leaves the same bytes in a sink that accepts every write,
    are equal field for field. *)
Theorem ToWriter_injective (a b : RPCSID) (buf : IO.Buffer) :
  wf_RPCSID a -> wf_RPCSID b ->
  SubAuthorityCount a = Z.of_nat (List.length (SubAuthority a)) ->
  SubAuthorityCount b = Z.of_nat (List.length (SubAuthority b)) ->
  fst (RPCSID_ToWriter a buf) = fst (RPCSID_ToWriter b buf) ->
  a = b.
Proof.
  intros (_ & _ & _ & Hsa) (_ & _ & _ & Hsb) Hca Hcb Heq.
  rewrite !ToWriter_Buffer in Heq. cbn [fst] in Heq.
  apply app_inv_head in Heq. rewrite !wire_bytes_layout in Heq.
  rewrite Hca, Hcb, !Nat2Z.id, !firstn_all in Heq.
  destruct a as [ra ca [a0 a1 a2 a3 a4 a5] sa],
           b as [rb cb [b0 b1 b2 b3 b4 b5] sb].
  cbn [Revision SubAuthorityCount IdentifierAuthority SubAuthority
       slice6 el0 el1 el2 el3 el4 el5 app] in *.
  injection Heq as -> _ -> -> -> -> -> -> Hsubs.
  apply (f_equal decode_u32s) in Hsubs.
  rewrite !decode_u32s_flat_map in Hsubs by assumption.
  subst. reflexivity.
Qed.

Lemma ToWriter_injective_witness :
  mkRPCSID 1 1 (mkArray6 0 0 0 0 0 5) [21] = mkRPCSID 1 1 (mkArray6 0 0 0 0 0 5) [21].
Proof.
  apply (ToWriter_injective _ _ ([] : IO.Buffer)).
  - wf_concrete.
  - wf_concrete.
  - reflexivity.
  - reflexivity.
  - reflexivity.
Defined.

(** ** Which error the parser reports *)

Lemma first_invalid_spec (parts : list string) :
  forall (i j : nat) (bad : string),
    first_invalid parts i = Some (j, bad) ->
    (i <= j)%nat /\ valid_uint32_decimal bad = false /\ In bad parts.
Proof.
  induction parts as [|p parts IH]; intros i j bad Hf; cbn [first_invalid] in Hf;
    [discriminate Hf|].
  destruct (valid_uint32_decimal p) eqn:Hp.
  - destruct (IH _ _ _ Hf) as (Hle & Hbad & Hin).
    repeat split; [lia | exact Hbad | now right].
  - injection Hf as <- <-. repeat split; [lia | exact Hp | now left].
Qed.

Lemma ConvertStrToSID_loop_first_invalid (parts : list string) :
  forall (i j : nat) (bad : string) (subCount : Z) (subAuths : list Z),
    first_invalid parts i = Some (j, bad) ->
    exists v k,
      Strconv.ParseUint bad 10 32 = (v, Some (Strconv.mkNumError bad k)) /\
      ConvertStrToSID_loop parts subCount subAuths = inr (Strconv.mkNumError bad k).
Proof.
  induction parts as [|p parts IH]; intros i j bad c acc Hf;
    cbn [first_invalid ConvertStrToSID_loop] in *; [discriminate Hf|].
  destruct (valid_uint32_decimal p) eqn:Hp.
  - rewrite (ParseUint_valid p Hp). now apply (IH (S i) j).
  - injection Hf as <- <-.
    destruct (ParseUint_invalid p Hp) as (v & k & Heq).
    exists v, k. split; [exact Heq|]. now rewrite Heq.
Qed.

(** With four parts or more, the parser's error is about the first part
    after part 0 that the numeric parse rejects. *)
Lemma first_invalid_error (s p0 p1 p2 p3 bad : string) (ps : list string) (j : nat) :
  Strings.Split s "-" = p0 :: p1 :: p2 :: p3 :: ps ->
  first_invalid (p1 :: p2 :: p3 :: ps) 1 = Some (j, bad) ->
  exists v k,
    Strconv.ParseUint bad 10 32 = (v, Some (Strconv.mkNumError bad k)) /\
    ConvertStrToSID s = (None, Some (field_error j (Strconv.mkNumError bad k))).
Proof.
  intros Hparts Hf. cbn [first_invalid] in Hf.
  destruct (valid_uint32_decimal p1) eqn:H1.
  - destruct (valid_uint32_decimal p2) eqn:H2.
    + change (if valid_uint32_decimal p3 then first_invalid ps 4 else Some (3%nat, p3))
        with (first_invalid (p3 :: ps) 3) in Hf.
      destruct (first_invalid_spec _ _ _ _ Hf) as (Hle & _ & _).
      destruct (ConvertStrToSID_loop_first_invalid _ _ _ _ 0 [] Hf)
        as (v & k & Hp & Hloop).
      exists v, k. split; [exact Hp|].
      unfold ConvertStrToSID. rewrite Hparts.
      cbn [List.length Nat.ltb Nat.leb nth skipn].
      rewrite (ParseUint_valid p1 H1), (ParseUint_valid p2 H2), Hloop.
      destruct j as [|[|[|j]]]; try lia; reflexivity.
    + injection Hf as <- <-.
      destruct (ConvertStrToSID_bad_authority s p0 p1 p2 p3 ps Hparts H1 H2)
        as (v & k & Hp & Heq).
      now exists v, k.
  - injection Hf as <- <-.
    destruct (ConvertStrToSID_bad_revision s p0 p1 p2 p3 ps Hparts H1)
      as (v & k & Hp & Heq).
    now exists v, k.
Qed.

(** X9. The first failure wins: when the input has four parts or more
    and some part after part 0 is not a decimal number of 32 bits, the
    parser returns nil and an error about the first such part, in input
    order: a revision error for part 1, an authority error for part 2, a
    sub-authority error for a later part; the error carries the text of
    that part and the error [ParseUint] gives for it. *)
Theorem ConvertStrToSID_first_failure (s p0 p1 p2 p3 bad : string)
        (ps : list string) (j : nat) :
  Strings.Split s "-" = p0 :: p1 :: p2 :: p3 :: ps ->
  first_invalid (p1 :: p2 :: p3 :: ps) 1 = Some (j, bad) ->
  exists v k,
    Strconv.ParseUint bad 10 32 = (v, Some (Strconv.mkNumError bad k)) /\
    ConvertStrToSID s = (None, Some (field_error j (Strconv.mkNumError bad k))) /\
    nth_error (Strings.Split s "-") j = Some bad.
Proof.
  intros Hparts Hf.
  destruct (first_invalid_error s p0 p1 p2 p3 bad ps j Hparts Hf)
    as (v & k & Hp & Heq).
  exists v, k. split; [exact Hp|]. split; [exact Heq|].
  rewrite Hparts. clear - Hf.
  assert (Hgen : forall parts i j bad,
             first_invalid parts i = Some (j, bad) ->
             nth_error parts (j - i) = Some bad).
  { induction parts as [|p parts IH]; intros i j' bad' Hf';
      cbn [first_invalid] in Hf'; [discriminate Hf'|].
    destruct (valid_uint32_decimal p).
    - destruct (first_invalid_spec _ _ _ _ Hf') as (Hle & _).
      replace (j' - i)%nat with (S (j' - S i)) by lia. cbn [nth_error].
      now apply IH.
    - injection Hf' as <- <-. now rewrite Nat.sub_diag. }
  destruct (first_invalid_spec _ _ _ _ Hf) as (Hle & _).
  replace j with (S (j - 1)) by lia. cbn [nth_error]. now apply Hgen.
Qed.

Lemma ConvertStrToSID_first_failure_witness :
  ConvertStrToSID "S-1-5-21-x-y" =
  (None, Some (SubauthorityError (Strconv.mkNumError "x" Strconv.ErrSyntax))).
Proof.
  destruct (ConvertStrToSID_first_failure "S-1-5-21-x-y" "S" "1" "5" "21" "x"
              ["x"; "y"] 4 eq_refl eq_refl) as (v & k & Hp & Heq & _).
  vm_compute in Hp. injection Hp as _ <-. exact Heq.
Defined.

Lemma ParseUint_loop_overflow (s0 cs : string) :
  forall n : Z,
    0 <= n <= maxVal32 -> all_digits cs = true -> maxVal32 < dec_value cs n ->
    Strconv.ParseUint_loop s0 cs 10 cutoff10 maxVal32 n =
    (maxVal32, Some (Strconv.mkNumError s0 Strconv.ErrRange)).
Proof.
  induction cs as [|ch cs IH]; intros n Hn Hdig Hbig;
    cbn [all_digits dec_value] in *; [lia|].
  apply andb_true_iff in Hdig as [Hch Hcs].
  pose proof Hch as Hr. apply is_digit_range in Hr.
  set (d := byte_of_ascii ch - 48) in *.
  rewrite maxVal32_eq in Hn. unfold MaxUint32 in Hn.
  rewrite ParseUint_loop_digit by exact Hch. cbv zeta. fold d.
  destruct (Z.geb_spec n cutoff10) as [Hge|_]; [rewrite cutoff10_eq in Hge; lia|].
  rewrite (to_uint64_small (n * 10)) by lia.
  rewrite (to_uint64_small (n * 10 + d)) by lia.
  destruct (Z.ltb_spec (n * 10 + d) (n * 10)) as [Hlt|_]; [lia|].
  destruct (Z.gtb_spec (n * 10 + d) maxVal32) as [Hgt|Hle]; cbn [orb];
    [reflexivity|].
  apply IH; [lia | exact Hcs |].
  replace (n * 10 + d) with (10 * n + d) by lia. exact Hbig.
Qed.

(** X10. No silent truncation to 32 bits: when the first part the
    numeric parse rejects consists of decimal digits (so that its value
    exceeds [MaxUint32]), the parser fails with [ParseUint]'s range error
    for that part; the number is never reduced modulo [2^32].  (Only the
    revision is truncated, to 8 bits, after it has passed the 32-bit
    parse.) *)
Theorem ConvertStrToSID_range_error (s p0 p1 p2 p3 bad : string)
        (ps : list string) (j : nat) :
  Strings.Split s "-" = p0 :: p1 :: p2 :: p3 :: ps ->
  first_invalid (p1 :: p2 :: p3 :: ps) 1 = Some (j, bad) ->
  bad <> EmptyString -> all_digits bad = true ->
  MaxUint32 < part_value bad /\
  ConvertStrToSID s =
  (None, Some (field_error j (Strconv.mkNumError bad Strconv.ErrRange))).
Proof.
  intros Hparts Hf Hne Hdig.
  destruct (first_invalid_spec _ _ _ _ Hf) as (_ & Hbad & _).
  assert (Hbig : MaxUint32 < part_value bad).
  { unfold valid_uint32_decimal in Hbad. destruct bad as [|c cs]; [congruence|].
    rewrite Hdig in Hbad. cbn [andb] in Hbad. apply Z.leb_gt in Hbad.
    exact Hbad. }
  split; [exact Hbig|].
  destruct (first_invalid_error s p0 p1 p2 p3 bad ps j Hparts Hf)
    as (v & k & Hp & Heq).
  assert (Hov : Strconv.ParseUint bad 10 32 =
                (maxVal32, Some (Strconv.mkNumError bad Strconv.ErrRange))).
  { destruct bad as [|c cs]; [congruence|]. unfold Strconv.ParseUint.
    change (maxUint64 / 10 + 1) with cutoff10. change (2 ^ 32 - 1) with maxVal32.
    apply ParseUint_loop_overflow;
      [rewrite maxVal32_eq; unfold MaxUint32; lia | exact Hdig |].
    rewrite maxVal32_eq. exact Hbig. }
  rewrite Hov in Hp. injection Hp as _ <-. exact Heq.
Qed.

Lemma ConvertStrToSID_range_error_witness :
  ConvertStrToSID "S-1-4294967296-21" =
  (None, Some (AuthorityError (Strconv.mkNumError "4294967296" Strconv.ErrRange))).
Proof.
  destruct (ConvertStrToSID_range_error "S-1-4294967296-21" "S" "1" "4294967296"
              "21" "4294967296" [] 2 eq_refl eq_refl) as [_ Heq].
  - discriminate.
  - reflexivity.
  - exact Heq.
Defined.
